(** * The SQS-to-FHIR lambda (packages/lambdas/src/sqs-to-fhir.ts)

    A shallow embedding of the queue-triggered handler that downloads a
    bundle from S3, normalises it and upserts it on the FHIR server with a
    bounded application-level retry loop, together with the properties
    stated about it.

    Layout: JavaScript values and errors, a reference JSON reader, the
    data model, the two pure helpers ([parseBody],
    [getErrorsFromReponse]), the effect layer (a computation reads the
    history of the calls made so far and returns the calls it adds), the
    handler, the relations that describe its runs, and then the lemmas and
    the theorems. *)

From Stdlib Require Import String Ascii ZArith List Lia Bool DecimalString.
From stdpp Require Import base option strings gmap.
Import ListNotations.

Local Open Scope string_scope.
Local Open Scope Z_scope.
Local Open Scope list_scope.

Set Warnings "-register-all".

(* ===================================================================== *)
(** ** JavaScript values, errors and results *)
(* ===================================================================== *)

(** The values a queue body or a parsed JSON text can be.  A number is the
    decimal [mant * 10^exp10] of its literal. *)
Inductive JsValue : Type :=
| JUndefined
| JNull
| JBool (b : bool)
| JNum (mant exp10 : Z)
| JStr (s : string)
| JArr (items : list JsValue)
| JObj (fields : list (string * JsValue)).

(** Thrown values.  [MetriportError] is the class of @metriport/shared:
    message, optional cause, optional additional info. *)
Inductive JsError : Type :=
| Error (msg : string)
| TypeError (msg : string)
| SyntaxError (msg : string)
| MetriportError (msg : string) (cause : option JsError)
                 (additionalInfo : list (string * string))
| Raised (name detail : string).

Inductive Result (A : Type) : Type :=
| Ok (a : A)
| Throw (e : JsError).
Arguments Ok {A} a.
Arguments Throw {A} e.

Definition bindR {A B} (m : Result A) (k : A -> Result B) : Result B :=
  match m with
  | Ok a => k a
  | Throw e => Throw e
  end.

Notation "x <~ m ;; k" := (bindR m (fun x => k))
  (at level 100, m at next level, right associativity).

Definition nonempty (s : string) : bool :=
  match s with
  | EmptyString => false
  | String _ _ => true
  end.

(** ToBoolean, the test behind [!x] and [if (x)]. *)
Definition truthy (v : JsValue) : bool :=
  match v with
  | JUndefined | JNull => false
  | JBool b => b
  | JNum m _ => negb (m =? 0)
  | JStr s => nonempty s
  | JArr _ | JObj _ => true
  end.

(** Truthiness of an optional string ([string | undefined]). *)
Definition truthy_str (o : option string) : bool :=
  match o with
  | Some s => nonempty s
  | None => false
  end.

Fixpoint assoc (k : string) (fs : list (string * JsValue)) : option JsValue :=
  match fs with
  | [] => None
  | (k', v) :: fs' => if String.eqb k k' then Some v else assoc k fs'
  end.

(** [v.k] for a property name [k] that is neither [length] nor an index:
    a TypeError on null and undefined, the own property of an object, and
    undefined on everything else. *)
Definition get_prop (v : JsValue) (k : string) : Result JsValue :=
  match v with
  | JUndefined | JNull =>
      Throw (TypeError ("Cannot read properties of undefined (reading '" +:+ k +:+ "')"))
  | JObj fs => Ok (default JUndefined (assoc k fs))
  | _ => Ok JUndefined
  end.

(** [n.toString()] of a non-negative integer. *)
Definition toString (n : nat) : string :=
  NilZero.string_of_uint (Nat.to_uint n).

(* ===================================================================== *)
(** ** A reference JSON reader

    [JSON.parse] is a builtin; the development is parametric in it (a
    variable of [parseBody], a field of [Env]).  This reader of the JSON
    grammar instantiates the parameter wherever a closed example is
    run. *)
(* ===================================================================== *)

Module JsonRef.

Definition dquote : ascii := "034"%char.
Definition backslash : ascii := "092"%char.

Definition is_ws (c : ascii) : bool :=
  let n := nat_of_ascii c in
  (n =? 32)%nat || (n =? 9)%nat || (n =? 10)%nat || (n =? 13)%nat.

Definition digit_of (c : ascii) : option Z :=
  let n := Z.of_nat (nat_of_ascii c) in
  if (48 <=? n) && (n <=? 57) then Some (n - 48) else None.

Definition hex_of (c : ascii) : option nat :=
  let n := nat_of_ascii c in
  if (48 <=? n)%nat && (n <=? 57)%nat then Some (n - 48)%nat
  else if (97 <=? n)%nat && (n <=? 102)%nat then Some (n - 87)%nat
  else if (65 <=? n)%nat && (n <=? 70)%nat then Some (n - 55)%nat
  else None.

Fixpoint skip_ws (s : list ascii) : list ascii :=
  match s with
  | c :: s' => if is_ws c then skip_ws s' else s
  | [] => []
  end.

(** The bytes (UTF-8) of a code unit given by a [\u] escape. *)
Definition utf8 (n : nat) : list ascii :=
  if (n <? 128)%nat then [ascii_of_nat n]
  else if (n <? 2048)%nat then
    [ascii_of_nat (192 + n / 64); ascii_of_nat (128 + n mod 64)]
  else
    [ascii_of_nat (224 + n / 4096);
     ascii_of_nat (128 + (n / 64) mod 64);
     ascii_of_nat (128 + n mod 64)].

(** The characters of a string literal after its opening quote. *)
Fixpoint read_string (s : list ascii) (acc : list ascii)
  : option (string * list ascii) :=
  match s with
  | [] => None
  | c :: s' =>
      if Ascii.eqb c dquote then Some (string_of_list_ascii (rev acc), s')
      else if Ascii.eqb c backslash then
        match s' with
        | e :: s'' =>
            if Ascii.eqb e dquote then read_string s'' (dquote :: acc)
            else if Ascii.eqb e backslash then read_string s'' (backslash :: acc)
            else if Ascii.eqb e "/" then read_string s'' ("/"%char :: acc)
            else if Ascii.eqb e "b" then read_string s'' ("008"%char :: acc)
            else if Ascii.eqb e "f" then read_string s'' ("012"%char :: acc)
            else if Ascii.eqb e "n" then read_string s'' ("010"%char :: acc)
            else if Ascii.eqb e "r" then read_string s'' ("013"%char :: acc)
            else if Ascii.eqb e "t" then read_string s'' ("009"%char :: acc)
            else if Ascii.eqb e "u" then
              match s'' with
              | a :: b :: c' :: d :: s3 =>
                  match hex_of a, hex_of b, hex_of c', hex_of d with
                  | Some x, Some y, Some z, Some w =>
                      read_string s3
                        (rev (utf8 (((x * 16 + y) * 16 + z) * 16 + w)) ++ acc)
                  | _, _, _, _ => None
                  end
              | _ => None
              end
            else None
        | [] => None
        end
      else if (nat_of_ascii c <? 32)%nat then None
      else read_string s' (c :: acc)
  end.

Fixpoint read_digits (s : list ascii) (acc : Z) (n : Z) : Z * Z * list ascii :=
  match s with
  | c :: s' =>
      match digit_of c with
      | Some d => read_digits s' (acc * 10 + d) (n + 1)
      | None => (acc, n, s)
      end
  | [] => (acc, n, s)
  end.

(** [-? int frac? exp?], as mantissa and decimal exponent. *)
Definition read_number (s : list ascii) : option (JsValue * list ascii) :=
  let '(neg, s1) :=
    match s with
    | c :: s' => if Ascii.eqb c "-" then (true, s') else (false, s)
    | [] => (false, s)
    end in
  let '(ip, ni, s2) := read_digits s1 0 0 in
  let lead0 := match s1 with c :: _ => Ascii.eqb c "0" | [] => false end in
  if (ni =? 0) || (lead0 && (1 <? ni)) then None else
  let frac :=
    match s2 with
    | c :: s' =>
        if Ascii.eqb c "." then
          let '(m, nf, s3) := read_digits s' ip 0 in
          if nf =? 0 then None else Some (m, nf, s3)
        else Some (ip, 0, s2)
    | [] => Some (ip, 0, s2)
    end in
  match frac with
  | None => None
  | Some (m, nf, s3) =>
      let sgn := if neg then (- m) else m in
      match s3 with
      | c :: s' =>
          if Ascii.eqb c "e" || Ascii.eqb c "E" then
            let '(eneg, s4) :=
              match s' with
              | d :: s'' =>
                  if Ascii.eqb d "-" then (true, s'')
                  else if Ascii.eqb d "+" then (false, s'')
                  else (false, s')
              | [] => (false, s')
              end in
            let '(e, ne, s5) := read_digits s4 0 0 in
            if ne =? 0 then None
            else Some (JNum sgn ((if eneg then (- e) else e) - nf), s5)
          else Some (JNum sgn (- nf), s3)
      | [] => Some (JNum sgn (- nf), s3)
      end
  end.

Fixpoint strip (lit : list ascii) (s : list ascii) : option (list ascii) :=
  match lit, s with
  | [], _ => Some s
  | a :: lit', b :: s' => if Ascii.eqb a b then strip lit' s' else None
  | _ :: _, [] => None
  end.

(** A later member of the same name replaces the earlier one. *)
Fixpoint set_field (k : string) (v : JsValue) (fs : list (string * JsValue))
  : list (string * JsValue) :=
  match fs with
  | [] => [(k, v)]
  | (k', v') :: fs' =>
      if String.eqb k k' then (k, v) :: fs' else (k', v') :: set_field k v fs'
  end.

Fixpoint read_value (fuel : nat) (s : list ascii) : option (JsValue * list ascii) :=
  match fuel with
  | O => None
  | S fuel' =>
      match skip_ws s with
      | [] => None
      | c :: s' =>
          if Ascii.eqb c "{" then
            match skip_ws s' with
            | d :: s'' =>
                if Ascii.eqb d "}" then Some (JObj [], s'')
                else read_members fuel' (skip_ws s') []
            | [] => None
            end
          else if Ascii.eqb c "[" then
            match skip_ws s' with
            | d :: s'' =>
                if Ascii.eqb d "]" then Some (JArr [], s'')
                else read_elements fuel' (skip_ws s') []
            | [] => None
            end
          else if Ascii.eqb c dquote then
            match read_string s' [] with
            | Some (str, rest) => Some (JStr str, rest)
            | None => None
            end
          else if Ascii.eqb c "t" then
            option_map (pair (JBool true)) (strip (list_ascii_of_string "rue") s')
          else if Ascii.eqb c "f" then
            option_map (pair (JBool false)) (strip (list_ascii_of_string "alse") s')
          else if Ascii.eqb c "n" then
            option_map (pair JNull) (strip (list_ascii_of_string "ull") s')
          else read_number (c :: s')
      end
  end
with read_elements (fuel : nat) (s : list ascii) (acc : list JsValue)
  : option (JsValue * list ascii) :=
  match fuel with
  | O => None
  | S fuel' =>
      match read_value fuel' s with
      | None => None
      | Some (v, rest) =>
          match skip_ws rest with
          | c :: rest' =>
              if Ascii.eqb c "," then read_elements fuel' rest' (v :: acc)
              else if Ascii.eqb c "]" then Some (JArr (rev (v :: acc)), rest')
              else None
          | [] => None
          end
      end
  end
with read_members (fuel : nat) (s : list ascii) (acc : list (string * JsValue))
  : option (JsValue * list ascii) :=
  match fuel with
  | O => None
  | S fuel' =>
      match skip_ws s with
      | q :: s' =>
          if Ascii.eqb q dquote then
            match read_string s' [] with
            | None => None
            | Some (k, rest) =>
                match skip_ws rest with
                | c :: rest' =>
                    if Ascii.eqb c ":" then
                      match read_value fuel' rest' with
                      | None => None
                      | Some (v, rest2) =>
                          match skip_ws rest2 with
                          | d :: rest3 =>
                              if Ascii.eqb d "," then
                                read_members fuel' rest3 (set_field k v acc)
                              else if Ascii.eqb d "}" then
                                Some (JObj (set_field k v acc), rest3)
                              else None
                          | [] => None
                          end
                      end
                    else None
                | [] => None
                end
            end
          else None
      | [] => None
      end
  end.

Definition JSON_parse (text : string) : Result JsValue :=
  let s := list_ascii_of_string text in
  match read_value (2 * List.length s + 2) s with
  | Some (v, rest) =>
      match skip_ws rest with
      | [] => Ok v
      | _ :: _ => Throw (SyntaxError "Unexpected non-whitespace character after JSON")
      end
  | None => Throw (SyntaxError "Unexpected token or end of JSON input")
  end.

(** Building JSON texts: a quoted string, and concatenation. *)
Definition q (s : string) : string :=
  String dquote (s +:+ String dquote EmptyString).

End JsonRef.


(* ===================================================================== *)
(** ** Data model: queue event, FHIR bundle, metrics *)
(* ===================================================================== *)

(** aws-lambda's [SQSMessageAttribute], [SQSRecord] and [SQSEvent], with the
    fields the handler reads.  A field the handler tests for presence is an
    option. *)
Record SQSMessageAttribute : Type := {
  stringValue : option string;
  binaryValue : option string;
  dataType : string
}.

Record SQSRecord : Type := {
  messageId : string;
  body : JsValue;
  messageAttributes : option (gmap string SQSMessageAttribute)
}.

Record SQSEvent : Type := {
  Records : option (list SQSRecord)
}.

Record EventBody : Type := {
  s3BucketName : string;
  s3FileName : string
}.

(** @medplum/fhirtypes' [Bundle], [BundleEntry], [BundleEntryResponse]:
    every field is optional there. *)
Record BundleEntryResponse : Type := {
  status : option string;
  location : option string
}.

Record BundleEntry : Type := {
  fullUrl : option string;
  response : option BundleEntryResponse
}.

Record Bundle : Type := {
  bundleType : option string;
  entry : option (list BundleEntry)
}.

(** A JavaScript number that may be NaN (the time of an unparsable date). *)
Inductive Num : Type :=
| Finite (z : Z)
| NaN.

Definition num_sub (a b : Num) : Num :=
  match a, b with
  | Finite x, Finite y => Finite (x - y)
  | _, _ => NaN
  end.

(** One entry of the [Metrics] object of shared/cloudwatch. *)
Inductive Metric : Type :=
| DurationMetric (duration : Num) (timestamp : Z)
| CountMetric (count : nat) (timestamp : Z).

(** The bundle object handed to the FHIR client: its identity and its
    contents. *)
Record Payload : Type := {
  payload_id : nat;
  payload_bundle : Bundle
}.

(* ===================================================================== *)
(** ** The pure helpers *)
(* ===================================================================== *)

Section Pure.

(** [JSON.parse], a parameter. *)
Variable JSON_parse : string -> Result JsValue.

(** [parseBody], lines 177-195. *)
Definition parseBody (body : JsValue) : Result EventBody :=
  let bodyString := match body with JStr s => Some s | _ => None end in
  if negb (truthy_str bodyString) then Throw (Error "Invalid body") else
  bodyAsJson <~ JSON_parse (default EmptyString bodyString) ;;
  s3BucketNameRaw <~ get_prop bodyAsJson "s3BucketName" ;;
  if negb (truthy s3BucketNameRaw) then Throw (Error "Missing s3BucketName") else
  match s3BucketNameRaw with
  | JStr s3BucketName =>
      s3FileNameRaw <~ get_prop bodyAsJson "s3FileName" ;;
      if negb (truthy s3FileNameRaw) then Throw (Error "Missing s3FileName") else
      match s3FileNameRaw with
      | JStr s3FileName =>
          Ok {| s3BucketName := s3BucketName; s3FileName := s3FileName |}
      | _ => Throw (Error "Invalid s3FileName")
      end
  | _ => Throw (Error "Invalid s3BucketName")
  end.

End Pure.

(** [response?.entry ? response.entry : []]. *)
Definition response_entries (resp : option Bundle) : list BundleEntry :=
  match resp with
  | Some b => default [] (entry b)
  | None => []
  end.

(** The value of [e.response?.status?.startsWith("2")]: undefined when the
    chain stops at a missing response or status, a boolean otherwise. *)
Definition status_startsWith_2 (e : BundleEntry) : JsValue :=
  match response e with
  | None => JUndefined
  | Some r =>
      match status r with
      | None => JUndefined
      | Some s => JBool (String.prefix "2" s)
      end
  end.

(** The arrow function given to [filter]:
    [e => !e.response?.status?.startsWith("2")]. *)
Definition is_error (e : BundleEntry) : bool :=
  negb (truthy (status_startsWith_2 e)).

(** [getErrorsFromReponse], lines 197-204. *)
Definition getErrorsFromReponse (resp : option Bundle) : list BundleEntry :=
  let entries := response_entries resp in
  let errors := List.filter is_error entries in
  errors.

(* ===================================================================== *)
(** ** Effects

    The handler talks to the clock, S3, the bundle parser, the FHIR
    server, the error-capture service, the metrics sink and the log.  Each
    such call is an [Event]; a computation reads the history of events so
    far and returns its result with the events it added.  What the outside
    world answers is given by an [Env], every answer a function of the
    history. *)
(* ===================================================================== *)

Inductive LogLine : Type :=
| NoRecords (event : SQSEvent)
| ProcessingRecords (n : nat)
| RecordLine (i : nat) (messageId : string)
| BodyLine (body : JsValue)
| GettingContents (bucket key : string)
| ConvertingPayload (len : nat)
| SendingPayload
| GotErrors (n : nat) (retry : bool) (errors : list BundleEntry)
| GotResult (countError : nat) (countSuccess : Z)
| FhirServerError (e : BundleEntry)
| Done
| ErrorProcessing (msg : string) (error : JsError).

(** The [extra] of [capture.message] and of [capture.error]. *)
Record MessageExtra : Type := {
  mx_event : SQSEvent;
  mx_context : string;
  mx_additional : string;
  mx_countSuccess : option Z;
  mx_countError : option nat;
  mx_level : option string
}.

Record ErrorExtra : Type := {
  ex_event : SQSEvent;
  ex_context : string;
  ex_error : JsError
}.

Inductive Event : Type :=
| EConsoleLog (line : LogLine)
| ELog (prefix : string) (line : LogLine)
| ECaptureMessage (msg : string) (extra : MessageExtra)
| ECaptureError (msg : string) (extra : ErrorExtra)
| EDateNow (t : Z)
| EGetFile (bucket key : string) (maxAttempts initialDelay : Z)
           (res : Result string)
| EParseBundle (raw patientId : string) (res : Result Payload)
| EExecuteBatch (fhirUrlPath : string) (payload : nat)
                (res : Result (option Bundle))
| EReportMetrics (metrics : gmap string Metric).

Definition History : Type := list Event.

Record Env : Type := {
  (** [getEnvOrFail("AWS_LAMBDA_FUNCTION_NAME")] *)
  lambdaName : string;
  JSON_parse : string -> Result JsValue;
  (** the reading of [Date.now()] and of [new Date()] *)
  clock : History -> Z;
  (** [new Date(s).getTime()] *)
  Date_getTime : string -> Num;
  getFileContentsAsString : History -> string -> string -> Result string;
  parseRawBundleForFhirServer : string -> string -> Result Bundle;
  executeBatch : History -> string -> Payload -> Result (option Bundle)
}.

(** [None] is a loop that ran out of fuel. *)
Definition Eff (A : Type) : Type := History -> option (Result A * list Event).

Definition ret {A} (a : A) : Eff A := fun _ => Some (Ok a, []).

Definition throw {A} (e : JsError) : Eff A := fun _ => Some (Throw e, []).

Definition lift {A} (r : Result A) : Eff A := fun _ => Some (r, []).

Definition emit (e : Event) : Eff unit := fun _ => Some (Ok tt, [e]).

Definition out_of_fuel {A} : Eff A := fun _ => None.

Definition bind {A B} (m : Eff A) (k : A -> Eff B) : Eff B :=
  fun h =>
    match m h with
    | None => None
    | Some (Throw e, t) => Some (Throw e, t)
    | Some (Ok a, t) =>
        match k a (h ++ t) with
        | None => None
        | Some (r, t') => Some (r, t ++ t')
        end
    end.

(** [try { m } catch (error) { handler error }]. *)
Definition try_catch {A} (m : Eff A) (handler : JsError -> Eff A) : Eff A :=
  fun h =>
    match m h with
    | None => None
    | Some (Ok a, t) => Some (Ok a, t)
    | Some (Throw e, t) =>
        match handler e (h ++ t) with
        | None => None
        | Some (r, t') => Some (r, t ++ t')
        end
    end.

Notation "x <- m ;; k" := (bind m (fun x => k))
  (at level 100, m at next level, right associativity).
Notation "m ;;; k" := (bind m (fun _ => k))
  (at level 100, right associativity).

(** [if (c) throw e], and a statement run only when [c] holds. *)
Definition throw_if (c : bool) (e : JsError) : Eff unit :=
  if c then throw e else ret tt.

Definition when_ (c : bool) (m : Eff unit) : Eff unit :=
  if c then m else ret tt.

(** [for (const [i, x] of l.entries())], from index [i]. *)
Fixpoint for_entries {A} (f : nat -> A -> Eff unit) (i : nat) (l : list A)
  : Eff unit :=
  match l with
  | [] => ret tt
  | x :: l' => f i x ;;; for_entries f (S i) l'
  end.

(** [l.forEach(f)]. *)
Fixpoint forEach {A} (f : A -> Eff unit) (l : list A) : Eff unit :=
  match l with
  | [] => ret tt
  | x :: l' => f x ;;; forEach f l'
  end.

(** What one turn of a loop body asks for. *)
Inductive Step (S : Type) : Type :=
| Continue (s : S)
| Break (s : S).
Arguments Continue {S} s.
Arguments Break {S} s.

(** [while (cond) { body }] over the loop variables [s]. *)
Fixpoint while_ {S} (fuel : nat) (cond : S -> bool) (body : S -> Eff (Step S))
  (s : S) : Eff S :=
  if cond s then
    match fuel with
    | O => out_of_fuel
    | Datatypes.S fuel' =>
        st <- body s ;;
        match st with
        | Break s' => ret s'
        | Continue s' => while_ fuel' cond body s'
        end
    end
  else ret s.

(* ===================================================================== *)
(** ** The handler *)
(* ===================================================================== *)

Definition maxRetries : nat := 10.

(** [defaultS3RetriesConfig]. *)
Definition defaultS3RetriesConfig_maxAttempts : Z := 3.
Definition defaultS3RetriesConfig_initialDelay : Z := 500.

(** The loop variables of the retry loop: [count], [retry], [response]. *)
Record LoopVars : Type := {
  ls_count : nat;
  ls_retry : bool;
  ls_response : option Bundle
}.

(** [attrib.k?.stringValue]. *)
Definition string_attr (attrib : gmap string SQSMessageAttribute) (k : string)
  : option string :=
  attrib !! k ≫= stringValue.

(** The prefix of the job's logger:
    [`${i}, patient ${patientId}, job ${jobId}`]. *)
Definition log_prefix (i : nat) (patientId : string) (jobId : option string)
  : string :=
  toString i +:+ ", patient " +:+ patientId +:+ ", job "
  +:+ default "undefined" jobId.

Section Handler.

Variable env : Env.

(** Fuel of the retry loop. *)
Variable fuel : nat.

Definition console_log (line : LogLine) : Eff unit := emit (EConsoleLog line).

(** [prefixedLog(prefix)]: a logger that writes the prefix and the line. *)
Definition prefixedLog (prefix : string) (line : LogLine) : Eff unit :=
  emit (ELog prefix line).

(** [Date.now()]; [new Date()] takes the same reading. *)
Definition Date_now : Eff Z :=
  fun h => let t := clock env h in Some (Ok t, [EDateNow t]).

Definition new_Date : Eff Z := Date_now.

(** Modelled from the spec: capture.message and capture.error of
    shared/capture are absent; the error-capture collaborator is
    fire-and-forget (section 6), so a call records its arguments and
    returns. *)
Definition capture_message (msg : string) (extra : MessageExtra) : Eff unit :=
  emit (ECaptureMessage msg extra).

Definition capture_error (msg : string) (extra : ErrorExtra) : Eff unit :=
  emit (ECaptureError msg extra).

(** Modelled from the spec: cloudWatchUtils.reportMetrics of
    shared/cloudwatch is absent; the metrics sink is fire-and-forget
    (section 6), so a call records the metrics and returns. *)
Definition reportMetrics (metrics : gmap string Metric) : Eff unit :=
  emit (EReportMetrics metrics).

(** Modelled from the spec: executeWithRetriesS3 of core/external/aws/s3 is
    absent; the Content Fetcher (section 4.1) returns the raw contents or
    fails with the last storage error.  One call is one event, whatever
    the fetcher retried inside. *)
Definition executeWithRetriesS3 (bucket key : string) : Eff string :=
  fun h =>
    let r := getFileContentsAsString env h bucket key in
    Some (r, [EGetFile bucket key defaultS3RetriesConfig_maxAttempts
                       defaultS3RetriesConfig_initialDelay r]).

(** Modelled from the spec: parseRawBundleForFhirServer of
    core/external/fhir/parse-bundle is absent; the Bundle Normalizer
    (section 4.2) returns a bundle or fails on malformed input.  The bundle
    it returns is a new object: its identity is the position of the call
    in the history. *)
Definition parseBundle (raw patientId : string) : Eff Payload :=
  fun h =>
    let r := b <~ parseRawBundleForFhirServer env raw patientId ;;
             Ok {| payload_id := length h; payload_bundle := b |} in
    Some (r, [EParseBundle raw patientId r]).

(** Modelled from the spec: executeWithNetworkRetries of @metriport/shared
    and MedplumClient.executeBatch are absent; the Batch Transaction Client
    (section 4.3) returns the response bundle or fails with a network
    error.  One call is one submission. *)
Definition executeWithNetworkRetries_executeBatch (fhirUrlPath : string)
  (payload : Payload) : Eff (option Bundle) :=
  fun h =>
    let r := executeBatch env h fhirUrlPath payload in
    Some (r, [EExecuteBatch fhirUrlPath (payload_id payload) r]).

(** [if (!x) throw e], after which [x] is a non-empty string. *)
Definition require_str (x : option string) (e : JsError) : Eff string :=
  match x with
  | Some s => if nonempty s then ret s else throw e
  | None => throw e
  end.

(** [processFHIRResponse], lines 206-229. *)
Definition processFHIRResponse (resp : option Bundle) (event : SQSEvent)
  (log : LogLine -> Eff unit) : Eff unit :=
  let entries := response_entries resp in
  let errors := getErrorsFromReponse resp in
  let countError := length errors in
  let countSuccess := Z.of_nat (length entries) - Z.of_nat countError in
  log (GotResult countError countSuccess) ;;;
  when_ (0 <? length errors)%nat
    (forEach (fun e => log (FhirServerError e)) errors ;;;
     capture_message "Error upserting Bundle on FHIR server"
       {| mx_event := event;
          mx_context := lambdaName env;
          mx_additional := "processResponse";
          mx_countSuccess := Some countSuccess;
          mx_countError := Some countError;
          mx_level := Some "error" |}).

(** The body of [while (retry)], lines 129-144. *)
Definition retry_body (log : LogLine -> Eff unit) (fhirUrlPath : string)
  (payload : Payload) (vars : LoopVars) : Eff (Step LoopVars) :=
  let count := S (ls_count vars) in
  resp <- executeWithNetworkRetries_executeBatch fhirUrlPath payload ;;
  let errors := getErrorsFromReponse resp in
  if (length errors <=? 0)%nat then
    ret (Break {| ls_count := count; ls_retry := ls_retry vars;
                  ls_response := resp |})
  else
    let retry := (count <? maxRetries)%nat in
    log (GotErrors (length errors) retry errors) ;;;
    if negb retry then
      throw (MetriportError "Too many errors from FHIR" None
               [("count", toString count);
                ("maxRetries", toString maxRetries)])
    else
      ret (Continue {| ls_count := count; ls_retry := retry;
                       ls_response := resp |}).

(** Lines 125-145: [count = 0], [retry = true], then the loop. *)
Definition retry_loop (log : LogLine -> Eff unit) (fhirUrlPath : string)
  (payload : Payload) : Eff LoopVars :=
  while_ fuel ls_retry (retry_body log fhirUrlPath payload)
    {| ls_count := 0; ls_retry := true; ls_response := None |}.

(** One turn of the [for] loop over the records, lines 83-164. *)
Definition process_record (event : SQSEvent) (i : nat) (message : SQSRecord)
  : Eff unit :=
  console_log (RecordLine i (messageId message)) ;;;
  match messageAttributes message with
  | None => throw (Error "Missing message attributes")
  | Some attrib =>
      throw_if (negb (truthy (body message))) (Error "Missing message body") ;;;
      let cxId := string_attr attrib "cxId" in
      let patientId := string_attr attrib "patientId" in
      let jobId := string_attr attrib "jobId" in
      let jobStartedAt := string_attr attrib "startedAt" in
      cxId <- require_str cxId (Error "Missing cxId") ;;
      patientId <- require_str patientId (Error "Missing patientId") ;;
      let log := prefixedLog (log_prefix i patientId jobId) in
      log (BodyLine (body message)) ;;;
      eb <- lift (parseBody (JSON_parse env) (body message)) ;;
      let metrics : gmap string Metric := ∅ in
      log (GettingContents (s3BucketName eb) (s3FileName eb)) ;;;
      downloadStart <- Date_now ;;
      payloadRaw <- executeWithRetriesS3 (s3BucketName eb) (s3FileName eb) ;;
      downloadEnd <- Date_now ;;
      downloadStamp <- new_Date ;;
      let metrics :=
        <["download" := DurationMetric (Finite (downloadEnd - downloadStart))
                                       downloadStamp]> metrics in
      log (ConvertingPayload (String.length payloadRaw)) ;;;
      payload <- parseBundle payloadRaw patientId ;;
      log SendingPayload ;;;
      upsertStart <- Date_now ;;
      let fhirUrlPath := "fhir/" +:+ cxId in
      vars <- retry_loop log fhirUrlPath payload ;;
      countStamp <- new_Date ;;
      let metrics :=
        <["errorCount" := CountMetric (ls_count vars) countStamp]> metrics in
      upsertEnd <- Date_now ;;
      upsertStamp <- new_Date ;;
      let metrics :=
        <["upsert" := DurationMetric (Finite (upsertEnd - upsertStart))
                                     upsertStamp]> metrics in
      metrics <-
        (if truthy_str jobStartedAt then
           jobEnd <- Date_now ;;
           jobStamp <- new_Date ;;
           ret (<["job" := DurationMetric
                             (num_sub (Finite jobEnd)
                                (Date_getTime env (default EmptyString jobStartedAt)))
                             jobStamp]> metrics)
         else ret metrics) ;;
      processFHIRResponse (ls_response vars) event log ;;;
      reportMetrics metrics
  end.

(** What the handler does between the size test and the [for] loop,
    lines 71-81. *)
Definition announce (event : SQSEvent) (records : list SQSRecord) : Eff unit :=
  when_ (1 <? length records)%nat
    (capture_message "Got more than one message from SQS"
       {| mx_event := event;
          mx_context := lambdaName env;
          mx_additional :=
            "This lambda is supposed to run w/ only 1 message per batch, got "
            +:+ toString (length records) +:+ " (still processing them all)";
          mx_countSuccess := None;
          mx_countError := None;
          mx_level := None |}) ;;;
  console_log (ProcessingRecords (length records)).

Definition handler_msg : string := "Error processing event on " +:+ lambdaName env.

(** The catch block, lines 167-174. *)
Definition on_error (event : SQSEvent) (error : JsError) : Eff unit :=
  let msg := handler_msg in
  console_log (ErrorProcessing msg error) ;;;
  capture_error msg
    {| ex_event := event; ex_context := lambdaName env; ex_error := error |} ;;;
  throw (MetriportError msg (Some error) []).

(** [handler], lines 63-175. *)
Definition handler (event : SQSEvent) : Eff unit :=
  try_catch
    (match Records event with
     | None => console_log (NoRecords event)
     | Some records =>
         if (length records <? 1)%nat then console_log (NoRecords event)
         else
           announce event records ;;;
           for_entries (process_record event) 0 records ;;;
           console_log Done
     end)
    (on_error event).

End Handler.

(* ===================================================================== *)
(** ** Reading a trace *)
(* ===================================================================== *)

Definition is_submission (e : Event) : bool :=
  match e with EExecuteBatch _ _ _ => true | _ => false end.

Definition is_fetch (e : Event) : bool :=
  match e with EGetFile _ _ _ _ _ => true | _ => false end.

Definition is_parse (e : Event) : bool :=
  match e with EParseBundle _ _ _ => true | _ => false end.

Definition is_flush (e : Event) : bool :=
  match e with EReportMetrics _ => true | _ => false end.

Definition is_capture_error (e : Event) : bool :=
  match e with ECaptureError _ _ => true | _ => false end.

Definition is_capture_message (e : Event) : bool :=
  match e with ECaptureMessage _ _ => true | _ => false end.

(** How many events of a kind a trace holds. *)
Definition count_of (p : Event -> bool) (t : list Event) : nat :=
  length (List.filter p t).

(** The responses of the submissions of a trace, in order. *)
Fixpoint submissions (t : list Event) : list (nat * Result (option Bundle)) :=
  match t with
  | [] => []
  | EExecuteBatch _ p r :: t' => (p, r) :: submissions t'
  | _ :: t' => submissions t'
  end.

(** The metrics records flushed by a trace, in order. *)
Fixpoint flushed (t : list Event) : list (gmap string Metric) :=
  match t with
  | [] => []
  | EReportMetrics m :: t' => m :: flushed t'
  | _ :: t' => flushed t'
  end.

(* ===================================================================== *)
(** ** A concrete world, to run the handler on *)
(* ===================================================================== *)

Module Sample.

Definition entry_with (st : option string) : BundleEntry :=
  {| fullUrl := None;
     response := Some {| status := st; location := None |} |}.

Definition entry_bare : BundleEntry := {| fullUrl := None; response := None |}.

Definition bundle_of (l : list BundleEntry) : Bundle :=
  {| bundleType := Some "batch-response"; entry := Some l |}.

Definition all_ok : Bundle :=
  bundle_of [entry_with (Some "200 OK"); entry_with (Some "201 Created");
             entry_with (Some "200 OK")].

Definition one_failing : Bundle :=
  bundle_of [entry_with (Some "200 OK"); entry_with (Some "400 Bad Request");
             entry_with (Some "201 Created")].

Definition source_bundle : Bundle :=
  {| bundleType := Some "batch";
     entry := Some [entry_bare; entry_bare; entry_bare] |}.

(** A server that answers with a failing entry to the first [failures]
    submissions of the history and with success afterwards. *)
Definition fails_then_ok (failures : nat) (h : History)
  : Result (option Bundle) :=
  if (count_of is_submission h <? failures)%nat
  then Ok (Some one_failing) else Ok (Some all_ok).

(** A server every answer of which has a failing entry. *)
Definition always_fails (h : History) : Result (option Bundle) :=
  Ok (Some one_failing).

Definition world (server : History -> Result (option Bundle))
  (blob : Result string) (parsed : Result Bundle) : Env :=
  {| lambdaName := "SqsToFhir";
     JSON_parse := JsonRef.JSON_parse;
     clock := fun h => 1000 + 7 * Z.of_nat (length h);
     Date_getTime := fun s => if String.eqb s "1970-01-01T00:00:00.000Z"
                              then Finite 0 else NaN;
     getFileContentsAsString := fun _ _ _ => blob;
     parseRawBundleForFhirServer := fun _ _ => parsed;
     executeBatch := fun h _ _ => server h |}.

(** The world of the end-to-end scenarios: the blob is there and parses. *)
Definition healthy (server : History -> Result (option Bundle)) : Env :=
  world server (Ok "raw") (Ok source_bundle).

Definition str_attr (v : string) : SQSMessageAttribute :=
  {| stringValue := Some v; binaryValue := None; dataType := "String" |}.

Definition body_text : string :=
  "{" +:+ JsonRef.q "s3BucketName" +:+ ":" +:+ JsonRef.q "bucket1" +:+ ","
      +:+ JsonRef.q "s3FileName" +:+ ":" +:+ JsonRef.q "patientA.json" +:+ "}".

Definition message (attrs : gmap string SQSMessageAttribute) : SQSRecord :=
  {| messageId := "m-1"; body := JStr body_text; messageAttributes := Some attrs |}.

Definition attrs_plain : gmap string SQSMessageAttribute :=
  <["cxId" := str_attr "cx1"]> (<["patientId" := str_attr "pat1"]> ∅).

Definition event_of (l : list SQSRecord) : SQSEvent := {| Records := Some l |}.

Definition job : SQSRecord := message attrs_plain.

(** A job that carries [startedAt] as a string. *)
Definition attrs_started : gmap string SQSMessageAttribute :=
  <["startedAt" := str_attr "1970-01-01T00:00:00.000Z"]> attrs_plain.

Definition job_started : SQSRecord := message attrs_started.

(** A job that carries [startedAt] as a binary attribute. *)
Definition attrs_binary_start : gmap string SQSMessageAttribute :=
  <["startedAt" := {| stringValue := None; binaryValue := Some "AAEC";
                      dataType := "Binary" |}]> attrs_plain.

Definition job_binary_start : SQSRecord := message attrs_binary_start.

(** A record without message attributes. *)
Definition job_bare : SQSRecord :=
  {| messageId := "m-0"; body := JStr body_text; messageAttributes := None |}.

Definition payload0 : Payload :=
  {| payload_id := 0; payload_bundle := source_bundle |}.

Definition storage_error : JsError := Raised "StorageError" "retrieval exhausted".

End Sample.


(* ===================================================================== *)
(** ** The statements' vocabulary *)
(* ===================================================================== *)

(** The status string of a response entry, when it has one. *)
Definition entry_status (e : BundleEntry) : option string :=
  response e ≫= status.

(** The failing entries as the specification words them: the status does
    not start with the character 2, a missing status being a failure. *)
Definition spec_failing (e : BundleEntry) : bool :=
  match entry_status e with
  | Some s => negb (String.prefix "2" s)
  | None => true
  end.





(** The member [k] of a parsed JSON object. *)
Definition member (j : JsValue) (k : string) : option JsValue :=
  match j with
  | JObj fs => assoc k fs
  | _ => None
  end.

(** A queue body that is the text of a JSON object whose two members are
    the strings of [eb]. *)
Definition object_body (parse : string -> Result JsValue) (body : JsValue)
  (eb : EventBody) : Prop :=
  exists text j,
    body = JStr text /\ parse text = Ok j /\
    member j "s3BucketName" = Some (JStr (s3BucketName eb)) /\
    member j "s3FileName" = Some (JStr (s3FileName eb)).

(** The same, both strings being non-empty. *)
Definition valid_body (parse : string -> Result JsValue) (body : JsValue)
  (eb : EventBody) : Prop :=
  object_body parse body eb /\
  nonempty (s3BucketName eb) = true /\ nonempty (s3FileName eb) = true.

(** The indices of the records whose processing began, in order. *)
Fixpoint started (t : list Event) : list nat :=
  match t with
  | [] => []
  | EConsoleLog (RecordLine i _) :: t' => i :: started t'
  | _ :: t' => started t'
  end.

(** Every submission of [t] lies between a clock reading [t0] and a later
    clock reading [t1]. *)
Definition spans (t : list Event) (t0 t1 : Z) : Prop :=
  exists pre mid post,
    t = pre ++ EDateNow t0 :: mid ++ EDateNow t1 :: post /\
    submissions pre = [] /\ submissions post = [].

Definition too_many (count : nat) : JsError :=
  MetriportError "Too many errors from FHIR" None
    [("count", toString count); ("maxRetries", toString maxRetries)].

(** The runs of the retry loop, from the loop head with [count = c] and
    [retry = true], at history [h]: the result and the events added. *)
Inductive loop_run (env : Env) (pfx path : string) (payload : Payload)
  : nat -> History -> Result LoopVars -> list Event -> Prop :=
| run_done c h resp :
    executeBatch env h path payload = Ok resp ->
    getErrorsFromReponse resp = [] ->
    loop_run env pfx path payload c h
      (Ok {| ls_count := S c; ls_retry := true; ls_response := resp |})
      [EExecuteBatch path (payload_id payload) (Ok resp)]
| run_network c h e :
    executeBatch env h path payload = Throw e ->
    loop_run env pfx path payload c h (Throw e)
      [EExecuteBatch path (payload_id payload) (Throw e)]
| run_exhausted c h resp :
    executeBatch env h path payload = Ok resp ->
    getErrorsFromReponse resp <> [] ->
    (maxRetries <= S c)%nat ->
    loop_run env pfx path payload c h (Throw (too_many (S c)))
      [EExecuteBatch path (payload_id payload) (Ok resp);
       ELog pfx (GotErrors (length (getErrorsFromReponse resp)) false
                   (getErrorsFromReponse resp))]
| run_again c h resp r t :
    executeBatch env h path payload = Ok resp ->
    getErrorsFromReponse resp <> [] ->
    (S c < maxRetries)%nat ->
    loop_run env pfx path payload (S c)
      (h ++ [EExecuteBatch path (payload_id payload) (Ok resp);
             ELog pfx (GotErrors (length (getErrorsFromReponse resp)) true
                         (getErrorsFromReponse resp))]) r t ->
    loop_run env pfx path payload c h r
      ([EExecuteBatch path (payload_id payload) (Ok resp);
        ELog pfx (GotErrors (length (getErrorsFromReponse resp)) true
                    (getErrorsFromReponse resp))] ++ t).

(** Bodies and events the statements are run on. *)
Module Inputs.

(** The text [{"s3BucketName":b,"s3FileName":f}]. *)
Definition body_of (b f : string) : string :=
  "{" +:+ JsonRef.q "s3BucketName" +:+ ":" +:+ JsonRef.q b +:+ ","
      +:+ JsonRef.q "s3FileName" +:+ ":" +:+ JsonRef.q f +:+ "}".

Definition empty_bucket_body : JsValue := JStr (body_of EmptyString "patientA.json").

End Inputs.

Definition is_log (e : Event) : bool :=
  match e with ELog _ _ | EConsoleLog _ => true | _ => false end.

(** The metrics a job has gathered when its loop is over. *)
Definition metrics_after_upsert (download : Num) (downloadStamp : Z)
  (count : nat) (countStamp : Z) (upsert : Num) (upsertStamp : Z)
  : gmap string Metric :=
  <["upsert" := DurationMetric upsert upsertStamp]>
    (<["errorCount" := CountMetric count countStamp]>
       (<["download" := DurationMetric download downloadStamp]> ∅)).

(** The runs of one job: the result of [process_record] and the events
    it adds, stage by stage.  The clock readings are whatever the clock
    gave. *)
Inductive record_run (env : Env) (event : SQSEvent) (i : nat)
  (message : SQSRecord) : Result unit -> list Event -> Prop :=
| job_rejected e :
    In e [Error "Missing message attributes"; Error "Missing message body";
          Error "Missing cxId"; Error "Missing patientId"] ->
    record_run env event i message (Throw e)
      [EConsoleLog (RecordLine i (messageId message))]
| job_bad_body attrib cxId patientId e :
    messageAttributes message = Some attrib ->
    string_attr attrib "cxId" = Some cxId ->
    string_attr attrib "patientId" = Some patientId ->
    parseBody (JSON_parse env) (body message) = Throw e ->
    record_run env event i message (Throw e)
      [EConsoleLog (RecordLine i (messageId message));
       ELog (log_prefix i patientId (string_attr attrib "jobId"))
         (BodyLine (body message))]
| job_fetch_failed attrib cxId patientId eb d0 e :
    messageAttributes message = Some attrib ->
    string_attr attrib "cxId" = Some cxId ->
    string_attr attrib "patientId" = Some patientId ->
    parseBody (JSON_parse env) (body message) = Ok eb ->
    let pfx := log_prefix i patientId (string_attr attrib "jobId") in
    record_run env event i message (Throw e)
      [EConsoleLog (RecordLine i (messageId message));
       ELog pfx (BodyLine (body message));
       ELog pfx (GettingContents (s3BucketName eb) (s3FileName eb));
       EDateNow d0;
       EGetFile (s3BucketName eb) (s3FileName eb)
         defaultS3RetriesConfig_maxAttempts
         defaultS3RetriesConfig_initialDelay (Throw e)]
| job_parse_failed attrib cxId patientId eb d0 raw d1 ds e :
    messageAttributes message = Some attrib ->
    string_attr attrib "cxId" = Some cxId ->
    string_attr attrib "patientId" = Some patientId ->
    parseBody (JSON_parse env) (body message) = Ok eb ->
    let pfx := log_prefix i patientId (string_attr attrib "jobId") in
    record_run env event i message (Throw e)
      [EConsoleLog (RecordLine i (messageId message));
       ELog pfx (BodyLine (body message));
       ELog pfx (GettingContents (s3BucketName eb) (s3FileName eb));
       EDateNow d0;
       EGetFile (s3BucketName eb) (s3FileName eb)
         defaultS3RetriesConfig_maxAttempts
         defaultS3RetriesConfig_initialDelay (Ok raw);
       EDateNow d1; EDateNow ds;
       ELog pfx (ConvertingPayload (String.length raw));
       EParseBundle raw patientId (Throw e)]
| job_upsert_failed attrib cxId patientId eb d0 raw d1 ds payload u0 hl e tl :
    messageAttributes message = Some attrib ->
    string_attr attrib "cxId" = Some cxId ->
    string_attr attrib "patientId" = Some patientId ->
    parseBody (JSON_parse env) (body message) = Ok eb ->
    let pfx := log_prefix i patientId (string_attr attrib "jobId") in
    loop_run env pfx ("fhir/" +:+ cxId) payload 0 hl (Throw e) tl ->
    record_run env event i message (Throw e)
      ([EConsoleLog (RecordLine i (messageId message));
        ELog pfx (BodyLine (body message));
        ELog pfx (GettingContents (s3BucketName eb) (s3FileName eb));
        EDateNow d0;
        EGetFile (s3BucketName eb) (s3FileName eb)
          defaultS3RetriesConfig_maxAttempts
          defaultS3RetriesConfig_initialDelay (Ok raw);
        EDateNow d1; EDateNow ds;
        ELog pfx (ConvertingPayload (String.length raw));
        EParseBundle raw patientId (Ok payload);
        ELog pfx SendingPayload;
        EDateNow u0] ++ tl)
| job_done attrib cxId patientId eb d0 raw d1 ds payload u0 hl vars tl
           cs u1 us tj metrics :
    messageAttributes message = Some attrib ->
    string_attr attrib "cxId" = Some cxId ->
    string_attr attrib "patientId" = Some patientId ->
    parseBody (JSON_parse env) (body message) = Ok eb ->
    let pfx := log_prefix i patientId (string_attr attrib "jobId") in
    loop_run env pfx ("fhir/" +:+ cxId) payload 0 hl (Ok vars) tl ->
    let gathered :=
      metrics_after_upsert (Finite (d1 - d0)) ds (ls_count vars) cs
        (Finite (u1 - u0)) us in
    (truthy_str (string_attr attrib "startedAt") = false /\
     tj = [] /\ metrics = gathered
     \/
     exists startedAt j1 js,
       string_attr attrib "startedAt" = Some startedAt /\
       nonempty startedAt = true /\
       tj = [EDateNow j1; EDateNow js] /\
       metrics = <["job" := DurationMetric
                              (num_sub (Finite j1) (Date_getTime env startedAt))
                              js]> gathered) ->
    record_run env event i message (Ok tt)
      ([EConsoleLog (RecordLine i (messageId message));
        ELog pfx (BodyLine (body message));
        ELog pfx (GettingContents (s3BucketName eb) (s3FileName eb));
        EDateNow d0;
        EGetFile (s3BucketName eb) (s3FileName eb)
          defaultS3RetriesConfig_maxAttempts
          defaultS3RetriesConfig_initialDelay (Ok raw);
        EDateNow d1; EDateNow ds;
        ELog pfx (ConvertingPayload (String.length raw));
        EParseBundle raw patientId (Ok payload);
        ELog pfx SendingPayload;
        EDateNow u0]
       ++ tl
       ++ [EDateNow cs; EDateNow u1; EDateNow us]
       ++ tj
       ++ [ELog pfx (GotResult 0
                       (Z.of_nat (length (response_entries (ls_response vars)))
                        - Z.of_nat 0));
           EReportMetrics metrics]).

(** A computation that ends, whatever the history. *)
Definition total {A} (m : Eff A) : Prop :=
  forall h, exists r t, m h = Some (r, t).

(** The notification of an invocation that carries [n] records, n > 1. *)
Definition notification (env : Env) (event : SQSEvent) (n : nat) : Event :=
  ECaptureMessage "Got more than one message from SQS"
    {| mx_event := event;
       mx_context := lambdaName env;
       mx_additional :=
         "This lambda is supposed to run w/ only 1 message per batch, got "
         +:+ toString n +:+ " (still processing them all)";
       mx_countSuccess := None;
       mx_countError := None;
       mx_level := None |}.

(** What the catch block adds for the error [err]. *)
Definition escalation (env : Env) (event : SQSEvent) (err : JsError)
  : list Event :=
  [EConsoleLog (ErrorProcessing (handler_msg env) err);
   ECaptureError (handler_msg env)
     {| ex_event := event; ex_context := lambdaName env; ex_error := err |}].

(** The runs of the [for] loop over the records, from index [i]. *)
Inductive jobs_run (env : Env) (event : SQSEvent)
  : nat -> list SQSRecord -> Result unit -> list Event -> Prop :=
| jobs_none i : jobs_run env event i [] (Ok tt) []
| jobs_failed i m l e t :
    record_run env event i m (Throw e) t ->
    jobs_run env event i (m :: l) (Throw e) t
| jobs_next i m l t r t' :
    record_run env event i m (Ok tt) t ->
    jobs_run env event (S i) l r t' ->
    jobs_run env event i (m :: l) r (t ++ t').

(** The result and the events of a run. *)
Definition outcome {A} (o : option (Result A * list Event)) : option (Result A) :=
  option_map fst o.

Definition events {A} (o : option (Result A * list Event)) : list Event :=
  match o with
  | Some (_, t) => t
  | None => []
  end.

(** What [announce] adds. *)
Definition announce_events (env : Env) (event : SQSEvent)
  (records : list SQSRecord) : list Event :=
  (if (1 <? length records)%nat
   then [notification env event (length records)] else [])
  ++ [EConsoleLog (ProcessingRecords (length records))].

(** Runs of the sample world, for the closed statements. *)
Module Runs.

Import Sample.

Definition scenario : Env := healthy (fails_then_ok 1).

(** One job with a string [startedAt], one failed attempt, then success. *)
Definition started_job :=
  process_record scenario 10 (event_of [job_started]) 0 job_started [].

(** The same job with a binary [startedAt]. *)
Definition binary_job :=
  process_record scenario 10 (event_of [job_binary_start]) 0 job_binary_start [].

(** Two records, the first without message attributes. *)
Definition two_records : SQSEvent := event_of [job_bare; job].

Definition two_records_run := handler scenario 10 two_records [].

(** One record whose blob cannot be retrieved. *)
Definition no_blob : Env :=
  world (fails_then_ok 0) (Throw storage_error) (Ok source_bundle).

End Runs.

(** The two end-to-end scenarios: one record, one failed attempt and then
    success; one record, every attempt failing. *)
Module Scenarios.

Import Sample.

Definition second_attempt_succeeds :=
  handler (healthy (fails_then_ok 1)) 10 (event_of [job]) [].

Definition every_attempt_fails :=
  handler (healthy always_fails) 10 (event_of [job]) [].

End Scenarios.


(** The records taken in order from index [i]: each one is processed by
    [process_record] at the history the one before it left, up to the
    first that throws; the events are those of the jobs, one after the
    other. *)
Inductive in_order (env : Env) (fuel : nat) (event : SQSEvent)
  : nat -> list SQSRecord -> History -> Result unit -> list Event -> Prop :=
| in_order_end i h : in_order env fuel event i [] h (Ok tt) []
| in_order_stop i m l h e t :
    process_record env fuel event i m h = Some (Throw e, t) ->
    in_order env fuel event i (m :: l) h (Throw e) t
| in_order_next i m l h t r t' :
    process_record env fuel event i m h = Some (Ok tt, t) ->
    in_order env fuel event (S i) l (h ++ t) r t' ->
    in_order env fuel event i (m :: l) h r (t ++ t').

(** The same world with another reading of dates. *)
Definition with_getTime (env : Env) (g : string -> Num) : Env :=
  {| lambdaName := lambdaName env;
     JSON_parse := JSON_parse env;
     clock := clock env;
     Date_getTime := g;
     getFileContentsAsString := getFileContentsAsString env;
     parseRawBundleForFhirServer := parseRawBundleForFhirServer env;
     executeBatch := executeBatch env |}.

(* ===================================================================== *)
(** ** More readers of a trace *)
(* ===================================================================== *)

(** The paths the submissions of a trace went to, in order. *)
Fixpoint submission_paths (t : list Event) : list string :=
  match t with
  | [] => []
  | EExecuteBatch path _ _ :: t' => path :: submission_paths t'
  | _ :: t' => submission_paths t'
  end.

(** The failing entries the summary of [processFHIRResponse] logged. *)
Fixpoint logged_errors (t : list Event) : list BundleEntry :=
  match t with
  | [] => []
  | ELog _ (FhirServerError e) :: t' => e :: logged_errors t'
  | _ :: t' => logged_errors t'
  end.

(** The capture.message call of [processFHIRResponse]. *)
Definition is_upsert_alarm (e : Event) : bool :=
  match e with
  | ECaptureMessage msg _ => String.eqb msg "Error upserting Bundle on FHIR server"
  | _ => false
  end.

(** The first line every job logs. *)
Definition record_line (i : nat) (message : SQSRecord) : Event :=
  EConsoleLog (RecordLine i (messageId message)).

(* ===================================================================== *)
(** ** The document-query trigger
    (packages/core/src/command/patient-import/commands/start-document-query.ts) *)
(* ===================================================================== *)

Module StartDocumentQuery.

(** The [extra] given to capture.error. *)
Record Extra : Type := {
  url : string;
  cxId : string;
  patientId : string;
  context : string;
  error : JsError
}.

(** The calls the function makes. *)
Inductive Call : Type :=
| Post (baseURL path : string) (data : JsValue) (res : Result JsValue)
| Debug (prefix line : string) (data : JsValue)
| Log (prefix msg : string) (cause : JsError)
| CaptureError (msg : string) (extra : Extra).

(** What the outside answers: [Config.getApiUrl()], and the [data] of the
    response of [api.post] (or what it throws). *)
Record World : Type := {
  getApiUrl : Result string;
  post : string -> string -> JsValue -> Result JsValue
}.

(** A computation: its result and the calls it made. *)
Definition Act (A : Type) : Type := (Result A * list Call)%type.

Definition aret {A} (a : A) : Act A := (Ok a, []).

Definition athrow {A} (e : JsError) : Act A := (Throw e, []).

Definition alift {A} (r : Result A) : Act A := (r, []).

Definition acall (c : Call) : Act unit := (Ok tt, [c]).

Definition abind {A B} (m : Act A) (k : A -> Act B) : Act B :=
  match m with
  | (Ok a, t) => let '(r, t') := k a in (r, t ++ t')
  | (Throw e, t) => (Throw e, t)
  end.

(** [try { m } catch (error) { handler error }]. *)
Definition atry {A} (m : Act A) (handler : JsError -> Act A) : Act A :=
  match m with
  | (Ok a, t) => (Ok a, t)
  | (Throw e, t) => let '(r, t') := handler e in (r, t ++ t')
  end.

Section Trigger.

Variable w : World.

(** Modelled from the spec: axios is an external library; [api.post]
    answers with a response whose [data] is given by the world, or throws
    (section 6: a single HTTP POST). *)
Definition api_post (baseURL path : string) (data : JsValue) : Act JsValue :=
  let r := post w baseURL path data in
  (r, [Post baseURL path data r]).

Definition failure_msg : string :=
  "Failure while starting document query @ PatientImport".

Definition query_url (cx pt : string) : string :=
  "/internal/docs/query?cxId=" +:+ cx +:+ "&patientId=" +:+ pt.

Definition out_prefix (cx pt : string) : string :=
  "PatientImport start document query - cxId " +:+ cx +:+ " patientId " +:+ pt.

(** [startDocumentQuery], lines 7-37.  The loggers of [out] and
    capture.error of util/notifications are absent: a call of one of them
    records its arguments and returns. *)
Definition startDocumentQuery (cx pt : string) : Act unit :=
  let prefix := out_prefix cx pt in
  abind (alift (getApiUrl w)) (fun baseURL =>
  let patientUrl := query_url cx pt in
  atry
    (abind (api_post baseURL patientUrl (JObj [])) (fun data =>
     if negb (truthy data)
     then athrow (Error ("No body returned from " +:+ patientUrl))
     else acall (Debug prefix patientUrl data)))
    (fun err =>
       let msg := failure_msg in
       abind (acall (Log prefix msg err)) (fun _ =>
       abind (acall (CaptureError msg
                       {| url := patientUrl; cxId := cx; patientId := pt;
                          context := "patient-import.start-document-query";
                          error := err |})) (fun _ =>
       athrow err)))).

End Trigger.

Definition is_post (c : Call) : bool :=
  match c with Post _ _ _ _ => true | _ => false end.

Definition is_capture (c : Call) : bool :=
  match c with CaptureError _ _ => true | _ => false end.

Definition calls_of (p : Call -> bool) (t : list Call) : nat :=
  length (List.filter p t).

(** A world whose API answers [data]. *)
Definition answering (data : JsValue) : World :=
  {| getApiUrl := Ok "https://api.internal";
     post := fun _ _ _ => Ok data |}.

(** A world whose API call throws. *)
Definition refusing (e : JsError) : World :=
  {| getApiUrl := Ok "https://api.internal";
     post := fun _ _ _ => Throw e |}.

(** A world without API URL in its configuration. *)
Definition unconfigured (e : JsError) : World :=
  {| getApiUrl := Throw e;
     post := fun _ _ _ => Ok (JObj []) |}.

End StartDocumentQuery.

(** More inputs for the closed statements. *)
Module MoreInputs.

Import Sample.

(** A job whose [startedAt] is no date. *)
Definition attrs_bad_start : gmap string SQSMessageAttribute :=
  <["startedAt" := str_attr "yesterday"]> attrs_plain.

Definition job_bad_start : SQSRecord := message attrs_bad_start.

Definition bad_start_job :=
  process_record Runs.scenario 10 (event_of [job_bad_start]) 0 job_bad_start [].

(** A job without [cxId]. *)
Definition attrs_no_cx : gmap string SQSMessageAttribute :=
  <["patientId" := str_attr "pat1"]> ∅.

Definition job_no_cx : SQSRecord := message attrs_no_cx.

Definition no_cx_job :=
  process_record Runs.scenario 10 (event_of [job_no_cx]) 0 job_no_cx [].

(** A world whose bundle parser rejects the blob. *)
Definition malformed : Env :=
  world (fails_then_ok 0) (Ok "raw") (Throw (Raised "MalformedBundleError" "not a bundle")).

Definition malformed_job :=
  process_record malformed 10 (event_of [job]) 0 job [].

Definition no_blob_job :=
  process_record Runs.no_blob 10 (event_of [job]) 0 job [].

End MoreInputs.

(* ===================================================================== *)
(** ** The Partial-Failure Evaluator *)
(* ===================================================================== *)

Lemma is_error_spec (e : BundleEntry) : is_error e = spec_failing e.
Proof.
  unfold is_error, spec_failing, entry_status, status_startsWith_2.
  destruct (response e) as [r|]; simpl; [|reflexivity].
  destruct (status r) as [s|]; reflexivity.
Qed.

Lemma filter_ext_eq {A} (f g : A -> bool) (l : list A) :
  (forall x, f x = g x) -> List.filter f l = List.filter g l.
Proof.
  intros E. induction l as [|x l IH]; simpl; [reflexivity|].
  rewrite E, IH. reflexivity.
Qed.

(** C2: whatever the response, the evaluator returns the entries of its
    entry list whose status does not start with the character 2, all of
    them and in their order; an entry without response or without status
    is among them.  An absent response, and a response without entry
    list, give no entry. *)
Theorem getErrorsFromReponse_exact (resp : option Bundle) :
  (resp = None -> getErrorsFromReponse resp = [])
  /\ (forall b, resp = Some b -> entry b = None ->
        getErrorsFromReponse resp = [])
  /\ (forall b l,
        resp = Some b -> entry b = Some l ->
        getErrorsFromReponse resp = List.filter spec_failing l
        /\ forall e, In e l ->
             (response e = None \/
              exists r, response e = Some r /\ status r = None) ->
             In e (getErrorsFromReponse resp)).
Proof.
  split; [|split].
  - intros ->. reflexivity.
  - intros b -> Hb. unfold getErrorsFromReponse, response_entries.
    rewrite Hb. reflexivity.
  - intros b l -> Hb. unfold getErrorsFromReponse, response_entries.
    rewrite Hb. simpl. split.
    + apply filter_ext_eq, is_error_spec.
    + intros e Hin Hmiss. apply filter_In. split; [exact Hin|].
      unfold is_error, status_startsWith_2.
      destruct Hmiss as [-> | (r & -> & ->)]; reflexivity.
Qed.

Lemma getErrorsFromReponse_exact_witness :
  getErrorsFromReponse (Some Sample.one_failing)
  = [Sample.entry_with (Some "400 Bad Request")]
  /\ In Sample.entry_bare
       (getErrorsFromReponse
          (Some (Sample.bundle_of [Sample.entry_bare; Sample.entry_with None])))
  /\ getErrorsFromReponse None = []
  /\ getErrorsFromReponse (Some {| bundleType := None; entry := None |}) = [].
Proof.
  split; [|split; [|split]].
  - rewrite (proj1 (proj2 (proj2 (getErrorsFromReponse_exact
                                    (Some Sample.one_failing)))
                     Sample.one_failing _ eq_refl eq_refl)).
    reflexivity.
  - apply (proj2 (proj2 (proj2 (getErrorsFromReponse_exact
                                  (Some (Sample.bundle_of
                                           [Sample.entry_bare;
                                            Sample.entry_with None]))))
                   _ _ eq_refl eq_refl)).
    + simpl. left. reflexivity.
    + left. reflexivity.
  - apply (proj1 (getErrorsFromReponse_exact None)). reflexivity.
  - apply (proj1 (proj2 (getErrorsFromReponse_exact
                           (Some {| bundleType := None; entry := None |})))
             {| bundleType := None; entry := None |}); reflexivity.
Defined.







(* ===================================================================== *)
(** ** The queue body *)
(* ===================================================================== *)

Section ParseBody.

Variable JSON_parse : string -> Result JsValue.

(** [JSON.parse] rejects the empty text. *)
Hypothesis JSON_parse_empty : forall v, JSON_parse EmptyString <> Ok v.

Lemma get_prop_string (j : JsValue) (k s : string) :
  nonempty s = true ->
  (get_prop j k = Ok (JStr s) <-> member j k = Some (JStr s)).
Proof.
  intros _. destruct j; simpl; try (split; discriminate).
  destruct (assoc k fields) as [v|]; simpl; split; congruence.
Qed.

Lemma parseBody_ok (body : JsValue) (eb : EventBody) :
  parseBody JSON_parse body = Ok eb <-> valid_body JSON_parse body eb.
Proof.
  unfold valid_body, object_body, parseBody. split.
  - destruct body as [| | | |text| |]; simpl; try discriminate.
    destruct (nonempty text) eqn:Ht; simpl; [|discriminate].
    destruct (JSON_parse text) as [j|e] eqn:Hj; simpl; [|discriminate].
    destruct (get_prop j "s3BucketName") as [b|e] eqn:Hb; simpl; [|discriminate].
    destruct (truthy b) eqn:Tb; simpl; [|discriminate].
    destruct b as [| | | |bs| |]; try discriminate.
    destruct (get_prop j "s3FileName") as [f|e] eqn:Hf; simpl; [|discriminate].
    destruct (truthy f) eqn:Tf; simpl; [|discriminate].
    destruct f as [| | | |fs| |]; try discriminate.
    intros H. injection H as <-. simpl in *.
    apply get_prop_string in Hb; [|exact Tb].
    apply get_prop_string in Hf; [|exact Tf].
    split; [|split; assumption].
    exists text, j. repeat split; assumption.
  - intros [(text & j & -> & Hj & Hb & Hf) [Nb Nf]]. simpl.
    destruct text as [|c text]; [exfalso; exact (JSON_parse_empty j Hj)|].
    simpl. rewrite Hj. simpl.
    apply get_prop_string in Hb; [|exact Nb].
    apply get_prop_string in Hf; [|exact Nf].
    rewrite Hb. simpl. rewrite Nb. simpl. rewrite Hf. simpl. rewrite Nf. simpl.
    destruct eb; reflexivity.
Qed.

(** C6, as the code has it: a body that is the text of a JSON object
    whose s3BucketName and s3FileName are non-empty strings gives exactly
    these two strings; every other body (not a string, not JSON, a member
    missing, not a string, or the empty string) makes parseBody throw. *)
Theorem parseBody_valid_or_throws (body : JsValue) :
  (forall eb, valid_body JSON_parse body eb -> parseBody JSON_parse body = Ok eb)
  /\ ((forall eb, ~ valid_body JSON_parse body eb) ->
      exists e, parseBody JSON_parse body = Throw e)
  /\ (forall eb, object_body JSON_parse body eb ->
        s3BucketName eb = EmptyString ->
        parseBody JSON_parse body = Throw (Error "Missing s3BucketName")).
Proof.
  split; [|split].
  - intros eb H. apply parseBody_ok, H.
  - intros H. destruct (parseBody JSON_parse body) as [eb|e] eqn:E.
    + exfalso. apply (H eb), parseBody_ok, E.
    + exists e. reflexivity.
  - intros eb (text & j & -> & Hj & Hb & _) Hempty. unfold parseBody. simpl.
    destruct text as [|c text]; [exfalso; exact (JSON_parse_empty j Hj)|].
    simpl. rewrite Hj. simpl. rewrite Hempty in Hb.
    destruct j; simpl in Hb; try discriminate.
    simpl. rewrite Hb. reflexivity.
Qed.

End ParseBody.

Lemma JsonRef_parse_empty (v : JsValue) : JsonRef.JSON_parse EmptyString <> Ok v.
Proof. vm_compute. discriminate. Qed.

Lemma parseBody_valid_or_throws_witness :
  parseBody JsonRef.JSON_parse (JStr Sample.body_text)
  = Ok {| s3BucketName := "bucket1"; s3FileName := "patientA.json" |}
  /\ (exists e, parseBody JsonRef.JSON_parse (JNum 5 0) = Throw e)
  /\ parseBody JsonRef.JSON_parse Inputs.empty_bucket_body
     = Throw (Error "Missing s3BucketName").
Proof.
  split; [|split].
  - apply (proj1 (parseBody_valid_or_throws JsonRef.JSON_parse
                    JsonRef_parse_empty (JStr Sample.body_text))).
    split; [|split; reflexivity].
    exists Sample.body_text. eexists.
    split; [reflexivity|]. split; [vm_compute; reflexivity|].
    split; reflexivity.
  - apply (proj1 (proj2 (parseBody_valid_or_throws JsonRef.JSON_parse
                           JsonRef_parse_empty (JNum 5 0)))).
    intros eb [(text & j & Hb & _) _]. discriminate Hb.
  - apply (proj2 (proj2 (parseBody_valid_or_throws JsonRef.JSON_parse
                           JsonRef_parse_empty Inputs.empty_bucket_body))
             {| s3BucketName := EmptyString; s3FileName := "patientA.json" |}).
    + exists (Inputs.body_of EmptyString "patientA.json"). eexists.
      split; [reflexivity|]. split; [vm_compute; reflexivity|].
      split; reflexivity.
    + reflexivity.
Defined.

(** The body whose s3BucketName is the empty string and whose s3FileName
    is patientA.json is a JSON object with two string members, and
    parseBody throws on it. *)
Lemma parseBody_string_fields_counterexample :
  object_body JsonRef.JSON_parse Inputs.empty_bucket_body
    {| s3BucketName := EmptyString; s3FileName := "patientA.json" |}
  /\ parseBody JsonRef.JSON_parse Inputs.empty_bucket_body
     <> Ok {| s3BucketName := EmptyString; s3FileName := "patientA.json" |}.
Proof.
  split.
  - exists (Inputs.body_of EmptyString "patientA.json"). eexists.
    split; [reflexivity|]. split; [vm_compute; reflexivity|].
    split; reflexivity.
  - vm_compute. discriminate.
Qed.

(* ===================================================================== *)
(** ** Traces and computations *)
(* ===================================================================== *)

Lemma count_of_app (p : Event -> bool) (a b : list Event) :
  count_of p (a ++ b) = (count_of p a + count_of p b)%nat.
Proof. unfold count_of. rewrite List.filter_app, length_app. reflexivity. Qed.

Lemma count_of_cons (p : Event -> bool) (e : Event) (t : list Event) :
  count_of p (e :: t) = ((if p e then 1 else 0) + count_of p t)%nat.
Proof. unfold count_of. simpl. destruct (p e); reflexivity. Qed.

Lemma submissions_app (a b : list Event) :
  submissions (a ++ b) = submissions a ++ submissions b.
Proof.
  induction a as [|e a IH]; simpl; [reflexivity|].
  destruct e; simpl; rewrite ?IH; reflexivity.
Qed.

Lemma flushed_app (a b : list Event) : flushed (a ++ b) = flushed a ++ flushed b.
Proof.
  induction a as [|e a IH]; simpl; [reflexivity|].
  destruct e; simpl; rewrite ?IH; reflexivity.
Qed.

Lemma started_app (a b : list Event) : started (a ++ b) = started a ++ started b.
Proof.
  induction a as [|e a IH]; simpl; [reflexivity|].
  destruct e as [[]| | | | | | | |]; simpl; rewrite ?IH; reflexivity.
Qed.

Lemma count_of_submissions (t : list Event) :
  count_of is_submission t = length (submissions t).
Proof.
  unfold count_of. induction t as [|e t IH]; simpl; [reflexivity|].
  destruct e; simpl; rewrite ?IH; reflexivity.
Qed.

Lemma count_of_flushed (t : list Event) :
  count_of is_flush t = length (flushed t).
Proof.
  unfold count_of. induction t as [|e t IH]; simpl; [reflexivity|].
  destruct e; simpl; rewrite ?IH; reflexivity.
Qed.

(** A trace made of events outside a kind holds none of that kind. *)
Lemma count_of_none (p : Event -> bool) (t : list Event) :
  Forall (fun e => p e = false) t -> count_of p t = 0%nat.
Proof.
  unfold count_of. induction 1 as [|e t He _ IH]; simpl; [reflexivity|].
  rewrite He. exact IH.
Qed.

Lemma bind_inv {A B} (m : Eff A) (k : A -> Eff B) h r t :
  bind m k h = Some (r, t) ->
  (exists e, m h = Some (Throw e, t) /\ r = Throw e) \/
  (exists a t1 t2, m h = Some (Ok a, t1) /\
                   k a (h ++ t1) = Some (r, t2) /\ t = t1 ++ t2).
Proof.
  unfold bind. destruct (m h) as [[[a|e] t1]|]; [| |discriminate].
  - destruct (k a (h ++ t1)) as [[r' t2]|] eqn:E; [|discriminate].
    intros H. injection H as <- <-. right. exists a, t1, t2. auto.
  - intros H. injection H as <- <-. left. exists e. auto.
Qed.

Lemma bind_eq {A B} (m : Eff A) (k : A -> Eff B) h :
  bind m k h =
  match m h with
  | None => None
  | Some (Throw e, t) => Some (Throw e, t)
  | Some (Ok a, t) =>
      match k a (h ++ t) with
      | None => None
      | Some (r, t') => Some (r, t ++ t')
      end
  end.
Proof. reflexivity. Qed.

(* ===================================================================== *)
(** ** The retry loop *)
(* ===================================================================== *)

Section Loop.

Variables (env : Env) (pfx path : string) (payload : Payload).

Lemma no_errors_iff (resp : option Bundle) :
  (length (getErrorsFromReponse resp) <=? 0)%nat = true
  <-> getErrorsFromReponse resp = [].
Proof.
  destruct (getErrorsFromReponse resp); simpl; split; congruence.
Qed.

(** Whatever the fuel, a loop that ends is a run of the loop. *)
Lemma loop_sound (fuel : nat) :
  forall c resp0 h r t,
    while_ fuel ls_retry (retry_body env (prefixedLog pfx) path payload) {| ls_count := c; ls_retry := true; ls_response := resp0 |} h = Some (r, t) ->
    loop_run env pfx path payload c h r t.
Proof.
  induction fuel as [|fuel IH]; intros c resp0 h r t; simpl; [discriminate|].
  unfold bind at 1, retry_body at 1, bind at 1,
    executeWithNetworkRetries_executeBatch at 1.
  destruct (executeBatch env h path payload) as [resp|e] eqn:Hx; simpl.
  - destruct (length (getErrorsFromReponse resp) <=? 0)%nat eqn:Hz.
    + apply no_errors_iff in Hz. simpl. intros H. injection H as <- <-.
      apply run_done; assumption.
    + assert (Hne : getErrorsFromReponse resp <> []).
      { intros E. apply no_errors_iff in E. congruence. }
      unfold bind at 1, prefixedLog at 1, emit at 1.
      destruct (S c <? maxRetries)%nat eqn:Hlt; simpl.
      * apply Nat.ltb_lt in Hlt.
        match goal with
        | |- context [while_ fuel ls_retry _ ?s ?h'] =>
            destruct (while_ fuel ls_retry (retry_body env (prefixedLog pfx) path payload) s h') as [[r' t']|] eqn:Hw
        end; [|discriminate].
        intros H. injection H as <- <-.
        apply IH in Hw.
        apply (run_again env pfx path payload c h resp r' t' Hx Hne Hlt) in Hw.
        exact Hw.
      * apply Nat.ltb_ge in Hlt. intros H. injection H as <- <-.
        apply run_exhausted; assumption.
  - intros H. injection H as <- <-. apply run_network. exact Hx.
Qed.

(** With fuel for the attempts that are left, the loop ends. *)
Lemma loop_total (fuel : nat) :
  forall c resp0 h,
    (maxRetries - c <= fuel)%nat -> (1 <= fuel)%nat ->
    exists r t, while_ fuel ls_retry (retry_body env (prefixedLog pfx) path payload) {| ls_count := c; ls_retry := true; ls_response := resp0 |} h = Some (r, t).
Proof.
  induction fuel as [|fuel IH]; intros c resp0 h Hf H1; [lia|]. simpl.
  unfold bind at 1, retry_body at 1, bind at 1,
    executeWithNetworkRetries_executeBatch at 1.
  destruct (executeBatch env h path payload) as [resp|e] eqn:Hx; simpl.
  - destruct (length (getErrorsFromReponse resp) <=? 0)%nat eqn:Hz; simpl.
    + eauto.
    + unfold bind at 1, prefixedLog at 1, emit at 1.
      destruct (S c <? maxRetries)%nat eqn:Hlt; simpl.
      * apply Nat.ltb_lt in Hlt.
        match goal with
        | |- context [while_ fuel ls_retry _ {| ls_count := ?c'; ls_retry := true; ls_response := ?r' |} ?h'] =>
            destruct (IH c' r' h') as (r & t & ->); [lia | lia |]
        end.
        eauto.
      * eauto.
  - eauto.
Qed.

(** The loop adds submissions and log lines only. *)
Lemma run_events c h r t :
  loop_run env pfx path payload c h r t -> Forall (fun e => is_submission e || is_log e = true) t.
Proof.
  induction 1; repeat constructor. assumption.
Qed.

(** Every submission of the loop hands over the same payload object. *)
Lemma run_payload c h r t :
  loop_run env pfx path payload c h r t -> Forall (fun s => fst s = payload_id payload) (submissions t).
Proof.
  induction 1; simpl; repeat constructor. assumption.
Qed.

Lemma run_at_least_one c h r t : loop_run env pfx path payload c h r t -> (1 <= length (submissions t))%nat.
Proof. induction 1; simpl; lia. Qed.

(** The loop stays within the attempts that are left. *)
Lemma run_bounded c h r t :
  loop_run env pfx path payload c h r t -> (c < maxRetries)%nat ->
  (c + length (submissions t) <= maxRetries)%nat.
Proof. induction 1; simpl; intros; lia. Qed.

(** A loop that ends normally: the last response has no failing entry,
    [retry] still holds and [count] is the number of submissions made. *)
Lemma run_ok c h vars t :
  loop_run env pfx path payload c h (Ok vars) t ->
  getErrorsFromReponse (ls_response vars) = []
  /\ ls_retry vars = true
  /\ ls_count vars = (c + length (submissions t))%nat
  /\ last (submissions t) = Some (payload_id payload, Ok (ls_response vars)).
Proof.
  remember (Ok vars) as r eqn:Er. intros H. revert vars Er.
  induction H; intros vars Er; try discriminate.
  - injection Er as <-. simpl. repeat split; [assumption | lia].
  - destruct (IHloop_run vars Er) as (E1 & E2 & E3 & E4).
    repeat split; try assumption.
    + rewrite E3. simpl. lia.
    + pose proof (run_at_least_one _ _ _ _ H2) as Hl. simpl.
      destruct (submissions t); [simpl in Hl; lia | exact E4].
Qed.

(** A submission without failing entry ends the loop, normally, and is
    its last submission. *)
Lemma run_first_success c h r t :
  loop_run env pfx path payload c h r t ->
  forall i p resp,
    submissions t !! i = Some (p, Ok resp) ->
    getErrorsFromReponse resp = [] ->
    r = Ok {| ls_count := S (c + i); ls_retry := true; ls_response := resp |} /\ length (submissions t) = S i.
Proof.
  induction 1; intros i p resp' Hi Hz; simpl in Hi.
  - destruct i as [|i]; simpl in Hi; [|discriminate].
    injection Hi as _ <-. rewrite Nat.add_0_r. split; reflexivity.
  - destruct i as [|i]; simpl in Hi; discriminate.
  - destruct i as [|i]; simpl in Hi; [|discriminate].
    injection Hi as _ <-. contradiction.
  - destruct i as [|i]; simpl in Hi.
    + injection Hi as _ <-. contradiction.
    + destruct (IHloop_run i p resp' Hi Hz) as [-> E].
      split; [f_equal; f_equal; lia | simpl; rewrite E; reflexivity].
Qed.

(** When every response has a failing entry, the loop uses up the
    attempts and throws. *)
Lemma run_always_failing c h r t :
  (forall h', exists resp,
      executeBatch env h' path payload = Ok resp /\
      getErrorsFromReponse resp <> []) ->
  loop_run env pfx path payload c h r t -> (c < maxRetries)%nat ->
  r = Throw (too_many maxRetries)
  /\ (c + length (submissions t))%nat = maxRetries.
Proof.
  intros Hall. induction 1; intros Hc.
  - destruct (Hall h) as (resp' & E & Hne). congruence.
  - destruct (Hall h) as (resp' & E & Hne). congruence.
  - assert (S c = maxRetries) as -> by lia. simpl. split; [reflexivity | lia].
  - destruct (IHloop_run H1) as [-> E]. split; [reflexivity | simpl; lia].
Qed.

End Loop.

(* ===================================================================== *)
(** ** One job *)
(* ===================================================================== *)

Section Job.

Variables (env : Env) (fuel : nat) (event : SQSEvent) (i : nat)
  (message : SQSRecord).

Ltac run_in H :=
  cbn [bind emit ret throw lift throw_if when_ require_str console_log
       prefixedLog Date_now new_Date executeWithRetriesS3 parseBundle
       reportMetrics capture_message capture_error app negb bindR
       length Nat.ltb Nat.leb forEach] in H;
  repeat match type of H with
         | context [clock env ?hh] =>
             let d := fresh "d" in set (d := clock env hh) in *; clearbody d
         end.

Lemma process_record_sound h r t :
  process_record env fuel event i message h = Some (r, t) ->
  record_run env event i message r t.
Proof.
  unfold process_record. intros H. run_in H.
  destruct (messageAttributes message) as [attrib|] eqn:Ha; run_in H.
  2:{ injection H as <- <-. apply job_rejected. simpl. auto. }
  destruct (truthy (body message)) eqn:Hb; run_in H.
  2:{ injection H as <- <-. apply job_rejected. simpl. auto. }
  destruct (string_attr attrib "cxId") as [cxId|] eqn:Hcx; run_in H.
  2:{ injection H as <- <-. apply job_rejected. simpl. auto. }
  destruct (nonempty cxId) eqn:Ncx; run_in H.
  2:{ injection H as <- <-. apply job_rejected. simpl. auto. }
  destruct (string_attr attrib "patientId") as [patientId|] eqn:Hpt; run_in H.
  2:{ injection H as <- <-. apply job_rejected. simpl. auto 6. }
  destruct (nonempty patientId) eqn:Npt; run_in H.
  2:{ injection H as <- <-. apply job_rejected. simpl. auto 6. }
  destruct (parseBody (JSON_parse env) (body message)) as [eb|e] eqn:Hpb;
    run_in H.
  2:{ injection H as <- <-. eapply job_bad_body; eassumption. }
  match type of H with
  | context [getFileContentsAsString env ?hh ?b ?k] =>
      destruct (getFileContentsAsString env hh b k) as [raw|e] eqn:Hf
  end; run_in H.
  2:{ injection H as <- <-. eapply job_fetch_failed; eassumption. }
  destruct (parseRawBundleForFhirServer env raw patientId) as [bundle|e] eqn:Hp;
    run_in H.
  2:{ injection H as <- <-. eapply job_parse_failed; eassumption. }
  match type of H with
  | context [bind (retry_loop env fuel ?l ?p ?pl) ?k ?hh] =>
      rewrite (bind_eq (retry_loop env fuel l p pl) k hh) in H;
      destruct (retry_loop env fuel l p pl hh) as [[[vars|e] tl]|] eqn:Hl
  end; run_in H.
  3:{ discriminate. }
  2:{ injection H as <- <-. apply loop_sound in Hl.
      eapply job_upsert_failed; eassumption. }
  apply loop_sound in Hl.
  destruct (run_ok _ _ _ _ _ _ _ _ Hl) as (Herr & _).
  unfold processFHIRResponse in H. rewrite Herr in H.
  destruct (truthy_str (string_attr attrib "startedAt")) eqn:Hs; run_in H;
    injection H as <- <-.
  - destruct (string_attr attrib "startedAt") as [startedAt|] eqn:Hst;
      [|discriminate Hs].
    eapply job_done with (tj := [EDateNow _; EDateNow _]); try eassumption.
    right. exists startedAt. do 2 eexists.
    split; [exact Hst|]. split; [exact Hs|]. split; reflexivity.
  - eapply job_done with (tj := []); try eassumption.
    left. split; [exact Hs|]. split; reflexivity.
Qed.

End Job.

(* ===================================================================== *)
(** ** Termination *)
(* ===================================================================== *)

Section Total.

Variables (env : Env) (fuel : nat).
Hypothesis enough : (maxRetries <= fuel)%nat.

Lemma total_ret {A} (a : A) : total (ret a).
Proof. intros h. unfold ret. eauto. Qed.

Lemma total_throw {A} (e : JsError) : total (@throw A e).
Proof. intros h. unfold throw. eauto. Qed.

Lemma total_lift {A} (r : Result A) : total (lift r).
Proof. intros h. unfold lift. eauto. Qed.

Lemma total_emit (e : Event) : total (emit e).
Proof. intros h. unfold emit. eauto. Qed.

Lemma total_bind {A B} (m : Eff A) (k : A -> Eff B) :
  total m -> (forall a, total (k a)) -> total (bind m k).
Proof.
  intros Hm Hk h. unfold bind. destruct (Hm h) as ([a|e] & t & ->).
  - destruct (Hk a (h ++ t)) as (r & t' & ->). eauto.
  - eauto.
Qed.

Lemma total_try_catch {A} (m : Eff A) (k : JsError -> Eff A) :
  total m -> (forall e, total (k e)) -> total (try_catch m k).
Proof.
  intros Hm Hk h. unfold try_catch. destruct (Hm h) as ([a|e] & t & ->).
  - eauto.
  - destruct (Hk e (h ++ t)) as (r & t' & ->). eauto.
Qed.

Lemma total_Date_now : total (Date_now env).
Proof. intros h. unfold Date_now. eauto. Qed.

Lemma total_forEach {A} (f : A -> Eff unit) (l : list A) :
  (forall a, total (f a)) -> total (forEach f l).
Proof.
  intros Hf. induction l as [|x l IH]; simpl.
  - apply total_ret.
  - apply total_bind; [apply Hf | intros _; exact IH].
Qed.

Lemma total_for_entries {A} (f : nat -> A -> Eff unit) (l : list A) :
  (forall i a, total (f i a)) -> forall i, total (for_entries f i l).
Proof.
  intros Hf. induction l as [|x l IH]; intros i; simpl.
  - apply total_ret.
  - apply total_bind; [apply Hf | intros _; apply IH].
Qed.

Lemma total_retry_loop pfx path payload :
  total (retry_loop env fuel (prefixedLog pfx) path payload).
Proof.
  intros h. unfold retry_loop. apply loop_total; unfold maxRetries in *; lia.
Qed.

Ltac total_step :=
  first
    [ apply total_ret | apply total_throw | apply total_lift
    | apply total_emit | apply total_Date_now | apply total_retry_loop
    | apply total_bind; [|intros ?]
    | apply total_forEach; intros ?
    | match goal with
      | |- total (match ?x with _ => _ end) => destruct x
      end ].

Lemma total_process_record event i message :
  total (process_record env fuel event i message).
Proof.
  unfold process_record, throw_if, require_str, console_log, prefixedLog,
    new_Date, reportMetrics, processFHIRResponse, when_, capture_message.
  repeat total_step.
  - intros h. unfold executeWithRetriesS3. eauto.
  - intros h. unfold parseBundle. eauto.
Qed.

(** With fuel for the attempt ceiling, the handler ends. *)
Lemma total_handler event : total (handler env fuel event).
Proof.
  unfold handler, on_error, announce, when_, console_log, capture_message,
    capture_error.
  apply total_try_catch.
  - destruct (Records event) as [records|]; [|apply total_emit].
    destruct (length records <? 1)%nat; [apply total_emit|].
    repeat total_step.
    apply total_for_entries. intros. apply total_process_record.
  - intros e. repeat total_step.
Qed.

End Total.

(* ===================================================================== *)
(** ** What one job adds to the trace *)
(* ===================================================================== *)

Section JobFacts.

Variables (env : Env) (event : SQSEvent) (i : nat) (message : SQSRecord).

(** A kind of event that is neither a submission nor a log line does not
    occur in the loop. *)
Lemma loop_count_zero (p : Event -> bool) pfx path payload c h r t :
  (forall e, is_submission e || is_log e = true -> p e = false) ->
  loop_run env pfx path payload c h r t -> count_of p t = 0%nat.
Proof.
  intros Hp H. apply count_of_none. apply run_events in H.
  eapply List.Forall_impl; [|exact H]. exact Hp.
Qed.

Ltac split_trace :=
  repeat rewrite ?count_of_cons, ?count_of_app, ?flushed_app, ?started_app,
    ?submissions_app.

Ltac loop_free :=
  match goal with
  | H : loop_run _ _ _ _ _ _ _ ?tl |- context [count_of ?p ?tl] =>
      rewrite (loop_count_zero p _ _ _ _ _ _ _
                 ltac:(intros []; simpl; congruence) H)
  end.

Ltac job_cases H :=
  destruct H;
  try match goal with
      | Hd : _ \/ _ |- _ =>
          destruct Hd as [(_ & -> & ->) | (? & ? & ? & _ & _ & -> & ->)]
      end.

Lemma record_run_no_capture r t :
  record_run env event i message r t ->
  count_of is_capture_error t = 0%nat /\ count_of is_capture_message t = 0%nat.
Proof.
  intros H. job_cases H; split; split_trace; repeat loop_free; reflexivity.
Qed.

Lemma flushed_count_zero (t : list Event) :
  count_of is_flush t = 0%nat -> flushed t = [].
Proof.
  rewrite count_of_flushed. destruct (flushed t); simpl; [reflexivity|lia].
Qed.

(** A job that throws has flushed no metrics. *)
Lemma record_run_throw_no_flush e t :
  record_run env event i message (Throw e) t -> count_of is_flush t = 0%nat.
Proof.
  intros H. inversion H; subst; split_trace; repeat loop_free; reflexivity.
Qed.

(** The processing of job [i] begins once, with its record line. *)
Lemma record_run_started r t :
  record_run env event i message r t -> started t = [i].
Proof.
  assert (Hs : forall pfx path payload c h r t,
             loop_run env pfx path payload c h r t -> started t = []).
  { induction 1; simpl; try reflexivity. assumption. }
  intros H. job_cases H; split_trace; simpl;
    repeat match goal with
           | H : loop_run _ _ _ _ _ _ _ _ |- _ => rewrite (Hs _ _ _ _ _ _ _ H)
           end; reflexivity.
Qed.

Lemma record_run_ok_attrs t :
  record_run env event i message (Ok tt) t ->
  exists attrib, messageAttributes message = Some attrib.
Proof. inversion 1; eauto. Qed.

(** The metrics of a job that ends normally. *)
Lemma record_run_metrics t attrib :
  record_run env event i message (Ok tt) t ->
  messageAttributes message = Some attrib ->
  exists metrics,
    flushed t = [metrics]
    /\ (exists d ts, metrics !! "download" = Some (DurationMetric (Finite d) ts))
    /\ (exists u0 u1 ts,
          metrics !! "upsert" = Some (DurationMetric (Finite (u1 - u0)) ts)
          /\ spans t u0 u1)
    /\ (exists ts,
          metrics !! "errorCount" = Some (CountMetric (length (submissions t)) ts))
    /\ (is_Some (metrics !! "job")
        <-> truthy_str (string_attr attrib "startedAt") = true).
Proof.
  intros H Ha. remember (Ok tt) as r eqn:Er.
  destruct H; try discriminate.
  match goal with
  | Hm : messageAttributes message = Some ?a |- _ =>
      rewrite Hm in Ha; injection Ha as <-
  end.
  match goal with
  | Hl : loop_run _ _ _ _ _ _ _ _ |- _ =>
      pose proof (loop_count_zero is_flush _ _ _ _ _ _ _
                    ltac:(intros []; simpl; congruence) Hl) as Hfl;
      apply flushed_count_zero in Hfl;
      destruct (run_ok _ _ _ _ _ _ _ _ Hl) as (_ & _ & Hc & _)
  end.
  simpl in Hc.
  exists metrics.
  match goal with
  | Hd : _ \/ _ |- _ =>
      destruct Hd as [(Hs & -> & ->) | (s & j1 & js & Hs & Hn & -> & ->)]
  end.
  - split; [split_trace; rewrite Hfl; reflexivity|].
    split; [exists (d1 - d0), ds; reflexivity|].
    split.
    { exists u0, u1, us. split; [reflexivity|].
      eexists [_; _; _; _; _; _; _; _; _; _], (tl ++ [EDateNow cs]), _.
      split; [simpl; rewrite <- app_assoc; reflexivity|].
      split; reflexivity. }
    split.
    { exists cs. split_trace. simpl. rewrite app_nil_r, <- Hc. reflexivity. }
    rewrite Hs. split; [|discriminate].
    intros [x Hx]. discriminate Hx.
  - split; [split_trace; rewrite Hfl; reflexivity|].
    split; [exists (d1 - d0), ds; reflexivity|].
    split.
    { exists u0, u1, us. split; [reflexivity|].
      eexists [_; _; _; _; _; _; _; _; _; _], (tl ++ [EDateNow cs]), _.
      split; [simpl; rewrite <- app_assoc; reflexivity|].
      split; reflexivity. }
    split.
    { exists cs. split_trace. simpl. rewrite app_nil_r, <- Hc. reflexivity. }
    rewrite Hs. simpl. rewrite Hn. split; [reflexivity|].
    intros _. eexists. reflexivity.
Qed.

Lemma record_run_ok_flush t :
  record_run env event i message (Ok tt) t -> count_of is_flush t = 1%nat.
Proof.
  intros H. destruct (record_run_ok_attrs t H) as [attrib Ha].
  destruct (record_run_metrics t attrib H Ha) as (m & Hm & _).
  rewrite count_of_flushed, Hm. reflexivity.
Qed.

(** Fetch and parse around the loop: at most one of each, and when the
    job submits at all, one fetch, then one parse, then the submissions,
    each of the object that parse made. *)
Lemma record_run_fetch_parse r t :
  record_run env event i message r t ->
  ((count_of is_fetch t <= 1)%nat /\ (count_of is_parse t <= 1)%nat)
  /\ (submissions t <> [] ->
      exists pre post raw patientId payload,
        t = pre ++ EParseBundle raw patientId (Ok payload) :: post
        /\ count_of is_fetch pre = 1%nat
        /\ count_of is_parse pre = 0%nat
        /\ submissions pre = []
        /\ count_of is_fetch post = 0%nat
        /\ count_of is_parse post = 0%nat
        /\ Forall (fun s => fst s = payload_id payload) (submissions post)).
Proof.
  intros H. job_cases H; (split; [split|]);
    try (split_trace; repeat loop_free; unfold count_of; simpl; lia);
    try (simpl; intros Hn; exfalso; apply Hn; reflexivity).
  - intros _.
    eexists [_; _; _; _; _; _; _; _], _, _, _, _.
    split; [simpl; reflexivity|].
    repeat split; try reflexivity;
      split_trace; repeat loop_free; try reflexivity.
    simpl. eapply run_payload. eassumption.
  - intros _.
    eexists [_; _; _; _; _; _; _; _], _, _, _, _.
    split; [simpl; reflexivity|].
    repeat split; try reflexivity;
      split_trace; repeat loop_free; try reflexivity.
    simpl. rewrite ?submissions_app. simpl. rewrite ?app_nil_r.
    eapply run_payload. eassumption.
  - intros _.
    eexists [_; _; _; _; _; _; _; _], _, _, _, _.
    split; [simpl; reflexivity|].
    repeat split; try reflexivity;
      split_trace; repeat loop_free; try reflexivity.
    simpl. rewrite ?submissions_app. simpl. rewrite ?app_nil_r.
    eapply run_payload. eassumption.
Qed.

End JobFacts.

(* ===================================================================== *)
(** ** The records of an invocation *)
(* ===================================================================== *)

Section Jobs.

Variables (env : Env) (fuel : nat) (event : SQSEvent).

Lemma for_entries_sound (l : list SQSRecord) :
  forall i h r t,
    for_entries (process_record env fuel event) i l h = Some (r, t) ->
    jobs_run env event i l r t.
Proof.
  induction l as [|m l IH]; intros i h r t; simpl.
  - unfold ret. intros H. injection H as <- <-. constructor.
  - intros H. apply bind_inv in H.
    destruct H as [(e & H & ->) | ([] & t1 & t2 & H1 & H2 & ->)].
    + apply jobs_failed. eapply process_record_sound. exact H.
    + apply jobs_next.
      * eapply process_record_sound. exact H1.
      * eapply IH. exact H2.
Qed.

(** The jobs begin in order; all of them when none throws, and up to the
    one that throws otherwise.  A job that ends flushes once. *)
Lemma jobs_run_facts i l r t :
  jobs_run env event i l r t ->
  count_of is_capture_error t = 0%nat
  /\ count_of is_capture_message t = 0%nat
  /\ exists k,
       started t = seq i k /\ (k <= length l)%nat
       /\ (r = Ok tt -> k = length l /\ count_of is_flush t = length l)
       /\ (forall e, r = Throw e ->
             (1 <= k)%nat /\ count_of is_flush t = (k - 1)%nat).
Proof.
  induction 1 as [i | i m l e t Hr | i m l t r t' Hr Hj IH].
  - split; [reflexivity|]. split; [reflexivity|]. exists 0%nat.
    split; [reflexivity|]. split; [simpl; lia|].
    split; [intros _; split; reflexivity | discriminate].
  - destruct (record_run_no_capture _ _ _ _ _ _ Hr) as [E1 E2].
    split; [exact E1|]. split; [exact E2|]. exists 1%nat.
    rewrite (record_run_started _ _ _ _ _ _ Hr).
    split; [reflexivity|]. split; [simpl; lia|].
    split; [discriminate|]. intros e0 _. split; [lia|].
    apply (record_run_throw_no_flush _ _ _ _ _ _ Hr).
  - destruct (record_run_no_capture _ _ _ _ _ _ Hr) as [E1 E2].
    destruct IH as (F1 & F2 & k & Hk & Hle & Hok & Hth).
    rewrite !count_of_app, E1, E2, F1, F2.
    split; [reflexivity|]. split; [reflexivity|]. exists (S k).
    rewrite started_app, (record_run_started _ _ _ _ _ _ Hr), Hk.
    rewrite (record_run_ok_flush _ _ _ _ _ Hr).
    split; [reflexivity|]. split; [simpl; lia|]. split.
    + intros E. destruct (Hok E) as [-> ->]. split; reflexivity.
    + intros e0 E. destruct (Hth e0 E) as [H1 ->]. split; lia.
Qed.

End Jobs.

(* ===================================================================== *)
(** ** The invocation *)
(* ===================================================================== *)

Section Invocation.

Variables (env : Env) (fuel : nat) (event : SQSEvent).

Lemma announce_run records h :
  announce env event records h
  = Some (Ok tt, announce_events env event records).
Proof.
  unfold announce, announce_events, when_, capture_message, console_log,
    notification.
  destruct (1 <? length records)%nat; reflexivity.
Qed.

Lemma on_error_run err h :
  on_error env event err h
  = Some (Throw (MetriportError (handler_msg env) (Some err) []),
          escalation env event err).
Proof. reflexivity. Qed.

Lemma bind_assoc {A B C} (m : Eff A) (k : A -> Eff B) (k' : B -> Eff C) h :
  bind (bind m k) k' h = bind m (fun a => bind (k a) k') h.
Proof.
  unfold bind. destruct (m h) as [[[a|e] t1]|]; [|reflexivity|reflexivity].
  destruct (k a (h ++ t1)) as [[[b|e] t2]|]; [|reflexivity|reflexivity].
  rewrite <- app_assoc.
  destruct (k' b (h ++ t1 ++ t2)) as [[r t3]|]; [|reflexivity].
  rewrite <- app_assoc. reflexivity.
Qed.

Lemma bind_ext {A B} (m : Eff A) (k k' : A -> Eff B) h :
  (forall a h', k a h' = k' a h') -> bind m k h = bind m k' h.
Proof.
  intros E. unfold bind. destruct (m h) as [[[a|e] t1]|]; [|reflexivity..].
  rewrite E. reflexivity.
Qed.

Lemma for_entries_app {A} (f : nat -> A -> Eff unit) (l1 l2 : list A) :
  forall i h,
    for_entries f i (l1 ++ l2) h
    = bind (for_entries f i l1)
        (fun _ => for_entries f (i + length l1) l2) h.
Proof.
  induction l1 as [|x l1 IH]; intros i h; simpl.
  - unfold bind, ret. rewrite Nat.add_0_r, app_nil_r.
    destruct (for_entries f i l2 h) as [[r t]|]; reflexivity.
  - rewrite bind_assoc. apply bind_ext. intros _ h'.
    rewrite IH. replace (S i + length l1)%nat with (i + S (length l1))%nat by lia.
    reflexivity.
Qed.

(** The runs of the handler. *)
Lemma handler_run h r t :
  handler env fuel event h = Some (r, t) ->
  match Records event with
  | None | Some [] => r = Ok tt /\ t = [EConsoleLog (NoRecords event)]
  | Some records =>
      exists rj tj,
        jobs_run env event 0 records rj tj /\
        match rj with
        | Ok _ =>
            r = Ok tt /\
            t = announce_events env event records ++ tj ++ [EConsoleLog Done]
        | Throw err =>
            r = Throw (MetriportError (handler_msg env) (Some err) []) /\
            t = announce_events env event records ++ tj
                ++ escalation env event err
        end
  end.
Proof.
  unfold handler, try_catch.
  destruct (Records event) as [[|m l]|].
  - simpl. intros H. injection H as <- <-. auto.
  - change (length (m :: l) <? 1)%nat with false. cbv iota.
    rewrite bind_eq, announce_run, bind_eq.
    destruct (for_entries (process_record env fuel event) 0 (m :: l)
                (h ++ announce_events env event (m :: l)))
      as [[[[]|err] tj]|] eqn:Hj.
    + apply for_entries_sound in Hj.
      unfold console_log, emit. intros H. injection H as <- <-.
      exists (Ok tt), tj. split; [exact Hj|]. split; reflexivity.
    + apply for_entries_sound in Hj. rewrite on_error_run.
      intros H. injection H as <- <-.
      exists (Throw err), tj. split; [exact Hj|].
      split; [reflexivity|]. rewrite <- app_assoc. reflexivity.
    + discriminate.
  - simpl. intros H. injection H as <- <-. auto.
Qed.

End Invocation.

Section InOrder.

Variables (env : Env) (fuel : nat) (event : SQSEvent).

Lemma for_entries_in_order (l : list SQSRecord) :
  forall i h r t,
    for_entries (process_record env fuel event) i l h = Some (r, t) ->
    in_order env fuel event i l h r t.
Proof.
  induction l as [|m l IH]; intros i h r t; simpl.
  - unfold ret. intros H. injection H as <- <-. constructor.
  - intros H. apply bind_inv in H.
    destruct H as [(e & H & ->) | ([] & t1 & t2 & H1 & H2 & ->)].
    + apply in_order_stop. exact H.
    + apply in_order_next; [exact H1 | apply IH; exact H2].
Qed.

Lemma in_order_jobs_run i l h r t :
  in_order env fuel event i l h r t -> jobs_run env event i l r t.
Proof.
  induction 1.
  - constructor.
  - apply jobs_failed. eapply process_record_sound. eassumption.
  - apply jobs_next; [eapply process_record_sound; eassumption | assumption].
Qed.

(** The job that threw: the records before it ended normally, and it
    threw the error at the history they left. *)
Lemma in_order_thrown i l h r t :
  in_order env fuel event i l h r t ->
  forall err, r = Throw err ->
  exists k m pre tk,
    l !! k = Some m /\ t = pre ++ tk
    /\ in_order env fuel event i (take k l) h (Ok tt) pre
    /\ process_record env fuel event (i + k) m (h ++ pre) = Some (Throw err, tk).
Proof.
  induction 1 as [i h | i m l h e t Hp | i m l h t r t' Hp Hi IH];
    intros err Er.
  - discriminate.
  - injection Er as ->. exists 0%nat, m, [], t.
    rewrite Nat.add_0_r, app_nil_r. repeat split; try assumption. constructor.
  - destruct (IH err Er) as (k & m' & pre & tk & Hk & -> & Hpre & Hrun).
    exists (S k), m', (t ++ pre), tk.
    rewrite Nat.add_succ_r, app_assoc, <- app_assoc. simpl.
    repeat split; try assumption.
    + econstructor; eassumption.
    + rewrite app_assoc. exact Hrun.
Qed.

(** The runs of the handler on an event with records: the announcement,
    the records in order, and then the last log line or the catch
    block. *)
Lemma handler_in_order records h r t :
  Records event = Some records -> records <> [] ->
  handler env fuel event h = Some (r, t) ->
  exists rj tj,
    in_order env fuel event 0 records
      (h ++ announce_events env event records) rj tj
    /\ t = announce_events env event records ++ tj
           ++ match rj with
              | Ok _ => [EConsoleLog Done]
              | Throw err => escalation env event err
              end
    /\ r = match rj with
           | Ok _ => Ok tt
           | Throw err => Throw (MetriportError (handler_msg env) (Some err) [])
           end.
Proof.
  intros HR Hne. unfold handler, try_catch. rewrite HR.
  destruct records as [|m l]; [congruence|].
  change (length (m :: l) <? 1)%nat with false. cbv iota.
  rewrite bind_eq, announce_run, bind_eq.
  destruct (for_entries (process_record env fuel event) 0 (m :: l)
              (h ++ announce_events env event (m :: l)))
    as [[[[]|err] tj]|] eqn:Hj.
  - apply for_entries_in_order in Hj.
    unfold console_log, emit. intros H. injection H as <- <-.
    exists (Ok tt), tj. split; [exact Hj|]. split; reflexivity.
  - apply for_entries_in_order in Hj. rewrite on_error_run.
    intros H. injection H as <- <-.
    exists (Throw err), tj. split; [exact Hj|].
    split; [rewrite <- app_assoc; reflexivity | reflexivity].
  - discriminate.
Qed.

End InOrder.

(* ===================================================================== *)
(** ** The statements about the retry loop *)
(* ===================================================================== *)

(** C1: the loop never submits more than the ceiling of 10 attempts, and
    when every response has a failing entry it submits exactly 10 times
    and then throws the too-many-errors error carrying count 10 and
    maxRetries 10. *)
Theorem retry_loop_ceiling (env : Env) (fuel : nat) (pfx path : string)
  (payload : Payload) (h : History) :
  (maxRetries <= fuel)%nat ->
  (forall r t,
      retry_loop env fuel (prefixedLog pfx) path payload h = Some (r, t) ->
      (length (submissions t) <= maxRetries)%nat)
  /\ ((forall h', exists resp,
          executeBatch env h' path payload = Ok resp /\
          getErrorsFromReponse resp <> []) ->
      exists t,
        retry_loop env fuel (prefixedLog pfx) path payload h
        = Some (Throw (MetriportError "Too many errors from FHIR" None
                         [("count", "10"); ("maxRetries", "10")]), t)
        /\ length (submissions t) = 10%nat).
Proof.
  intros Hfuel. split.
  - intros r t H. apply loop_sound in H.
    apply run_bounded in H; [exact H | unfold maxRetries; lia].
  - intros Hall.
    destruct (total_retry_loop env fuel Hfuel pfx path payload h) as (r & t & E).
    pose proof (loop_sound _ _ _ _ _ _ _ _ _ _ E) as Hrun.
    destruct (run_always_failing _ _ _ _ _ _ _ _ Hall Hrun) as [-> Hn];
      [unfold maxRetries; lia|].
    exists t. split; [exact E | exact Hn].
Qed.

Lemma retry_loop_ceiling_witness :
  exists t,
    retry_loop (Sample.healthy Sample.always_fails) 10 (prefixedLog "0") "fhir/cx1"
      Sample.payload0 []
    = Some (Throw (MetriportError "Too many errors from FHIR" None
                     [("count", "10"); ("maxRetries", "10")]), t)
    /\ length (submissions t) = 10%nat.
Proof.
  apply (proj2 (retry_loop_ceiling (Sample.healthy Sample.always_fails) 10
                  "0" "fhir/cx1" Sample.payload0 [] (le_n _))).
  intros h'. exists (Some Sample.one_failing).
  split; [reflexivity | discriminate].
Defined.

Section Scripted.

Variables (env : Env) (pfx path : string) (payload : Payload) (h : History).

(** The server's answers as a sequence, by the number of submissions
    made since [h]. *)
Variable answers : nat -> option Bundle.
Hypothesis scripted :
  forall t', executeBatch env (h ++ t') path payload
             = Ok (answers (length (submissions t'))).

Lemma run_scripted k :
  (forall n, (n < k)%nat -> getErrorsFromReponse (answers n) <> []) ->
  getErrorsFromReponse (answers k) = [] ->
  (k < maxRetries)%nat ->
  forall c t' r t,
    loop_run env pfx path payload c (h ++ t') r t ->
    length (submissions t') = c -> (c <= k)%nat ->
    r = Ok {| ls_count := S k; ls_retry := true; ls_response := answers k |}
    /\ (c + length (submissions t))%nat = S k.
Proof.
  intros Hbad Hgood Hceil c t' r t H. remember (h ++ t') as hh eqn:Eh.
  revert t' Eh. induction H; intros t' Eh Hc Hk; subst h0.
  - rewrite scripted, Hc in H. injection H as <-.
    assert (c = k) as ->.
    { destruct (Nat.eq_dec c k) as [E|N]; [exact E|].
      exfalso. apply (Hbad c); [lia | exact H0]. }
    split; [reflexivity | simpl; lia].
  - rewrite scripted in H. discriminate.
  - rewrite scripted, Hc in H. injection H as <-.
    assert (c = k) as -> by (unfold maxRetries in *; lia).
    contradiction.
  - rewrite scripted, Hc in H. injection H as <-.
    assert (c < k)%nat.
    { destruct (Nat.eq_dec c k) as [E|N]; [subst; contradiction | lia]. }
    destruct (IHloop_run
                (t' ++ [EExecuteBatch path (payload_id payload) (Ok (answers c));
                        ELog pfx (GotErrors (length (getErrorsFromReponse (answers c)))
                                    true (getErrorsFromReponse (answers c)))]))
      as [-> E].
    + rewrite app_assoc. reflexivity.
    + rewrite submissions_app, length_app. simpl. lia.
    + lia.
    + split; [reflexivity | simpl; lia].
Qed.

End Scripted.

(** C4: a submission whose response has no failing entry ends the loop
    normally and is the last submission, whatever the number of failed
    attempts before it; and when the server answers k times with failures
    and then without, the loop ends normally after k+1 submissions. *)
Theorem retry_loop_first_success (env : Env) (fuel : nat) (pfx path : string)
  (payload : Payload) (h : History) :
  (forall r t i p resp,
      retry_loop env fuel (prefixedLog pfx) path payload h = Some (r, t) ->
      submissions t !! i = Some (p, Ok resp) ->
      getErrorsFromReponse resp = [] ->
      r = Ok {| ls_count := S i; ls_retry := true; ls_response := resp |}
      /\ length (submissions t) = S i)
  /\ (forall (answers : nat -> option Bundle) k,
        (maxRetries <= fuel)%nat ->
        (forall t', executeBatch env (h ++ t') path payload
                    = Ok (answers (length (submissions t')))) ->
        (forall n, (n < k)%nat -> getErrorsFromReponse (answers n) <> []) ->
        getErrorsFromReponse (answers k) = [] ->
        (k < maxRetries)%nat ->
        exists t,
          retry_loop env fuel (prefixedLog pfx) path payload h
          = Some (Ok {| ls_count := S k; ls_retry := true;
                        ls_response := answers k |}, t)
          /\ length (submissions t) = S k).
Proof.
  split.
  - intros r t i p resp H Hi Hz. apply loop_sound in H.
    apply (run_first_success _ _ _ _ _ _ _ _ H i p resp Hi Hz).
  - intros answers k Hfuel Hs Hbad Hgood Hk.
    destruct (total_retry_loop env fuel Hfuel pfx path payload h) as (r & t & E).
    pose proof (loop_sound _ _ _ _ _ _ _ _ _ _ E) as Hrun.
    rewrite <- (app_nil_r h) in Hrun.
    destruct (run_scripted env pfx path payload h answers Hs k Hbad Hgood Hk
                0%nat [] r t Hrun eq_refl ltac:(lia)) as [-> Hn].
    exists t. split; [exact E | exact Hn].
Qed.

Lemma retry_loop_first_success_witness :
  exists t,
    retry_loop (Sample.healthy (Sample.fails_then_ok 1)) 10 (prefixedLog "0")
      "fhir/cx1" Sample.payload0 []
    = Some (Ok {| ls_count := 2; ls_retry := true;
                  ls_response := Some Sample.all_ok |}, t)
    /\ length (submissions t) = 2%nat.
Proof.
  apply (proj2 (retry_loop_first_success
                  (Sample.healthy (Sample.fails_then_ok 1)) 10 "0" "fhir/cx1"
                  Sample.payload0 [])
           (fun n => if (n <? 1)%nat then Some Sample.one_failing
                     else Some Sample.all_ok) 1%nat).
  - unfold maxRetries. lia.
  - intros t'. simpl. unfold Sample.fails_then_ok.
    rewrite count_of_submissions.
    destruct (length (submissions t') <? 1)%nat; reflexivity.
  - intros n Hn. destruct n; [discriminate | lia].
  - reflexivity.
  - unfold maxRetries. lia.
Defined.

(* ===================================================================== *)
(** ** The statements about one job *)
(* ===================================================================== *)

Lemma truthy_str_iff (o : option string) :
  truthy_str o = true <-> exists s, o = Some s /\ s <> EmptyString.
Proof.
  destruct o as [[|c s]|]; simpl; split; try discriminate.
  - intros (s & E & N). injection E as <-. congruence.
  - intros _. eexists. split; [reflexivity | discriminate].
  - intros (s' & E & N). reflexivity.
  - intros (s & E & _). discriminate.
Qed.

(** C5, as the code has it: a job that ends normally flushes one metrics
    record; it holds a download duration, an upsert duration taken between
    a clock reading before the first submission and one after the last,
    an errorCount equal to the number of submissions made, and a job
    duration exactly when the startedAt attribute of the message has a
    non-empty string value. *)
Theorem job_metrics (env : Env) (fuel : nat) (event : SQSEvent) (i : nat)
  (message : SQSRecord) (h : History) (t : list Event) :
  process_record env fuel event i message h = Some (Ok tt, t) ->
  exists attrib metrics,
    messageAttributes message = Some attrib
    /\ flushed t = [metrics]
    /\ (exists d ts, metrics !! "download" = Some (DurationMetric (Finite d) ts))
    /\ (exists u0 u1 ts,
          metrics !! "upsert" = Some (DurationMetric (Finite (u1 - u0)) ts)
          /\ spans t u0 u1)
    /\ (exists ts,
          metrics !! "errorCount" = Some (CountMetric (length (submissions t)) ts))
    /\ (is_Some (metrics !! "job")
        <-> exists s, string_attr attrib "startedAt" = Some s /\ s <> EmptyString).
Proof.
  intros H. apply process_record_sound in H.
  destruct (record_run_ok_attrs _ _ _ _ _ H) as [attrib Ha].
  destruct (record_run_metrics _ _ _ _ _ attrib H Ha)
    as (metrics & Hf & Hd & Hu & Hc & Hj).
  exists attrib, metrics. rewrite <- truthy_str_iff. auto 10.
Qed.

Lemma job_metrics_witness :
  outcome Runs.started_job = Some (Ok tt)
  /\ exists metrics,
       flushed (events Runs.started_job) = [metrics]
       /\ (exists ts, metrics !! "errorCount" = Some (CountMetric 2 ts))
       /\ is_Some (metrics !! "job").
Proof.
  split; [vm_compute; reflexivity|].
  destruct (job_metrics Runs.scenario 10 (Sample.event_of [Sample.job_started])
              0%nat Sample.job_started [] (events Runs.started_job))
    as (attrib & metrics & Ha & Hf & _ & _ & Hc & Hj).
  { vm_compute. reflexivity. }
  exists metrics. split; [exact Hf|]. split.
  - destruct Hc as [ts Hc]. exists ts.
    assert (E : length (submissions (events Runs.started_job)) = 2%nat)
      by (vm_compute; reflexivity).
    rewrite E in Hc. exact Hc.
  - apply Hj. injection Ha as <-.
    exists "1970-01-01T00:00:00.000Z". split; [vm_compute; reflexivity|].
    discriminate.
Defined.

(** The message carries a startedAt attribute of binary type; the job ends
    normally and the one record flushed has no job entry. *)
Lemma job_metrics_startedAt_counterexample :
  outcome Runs.binary_job = Some (Ok tt)
  /\ is_Some (Sample.attrs_binary_start !! "startedAt")
  /\ length (flushed (events Runs.binary_job)) = 1%nat
  /\ Forall (fun m : gmap string Metric => m !! "job" = None)
       (flushed (events Runs.binary_job)).
Proof.
  split; [vm_compute; reflexivity|].
  split; [eexists; vm_compute; reflexivity|].
  split; [vm_compute; reflexivity|].
  set (fl := flushed (events Runs.binary_job)). vm_compute in fl.
  subst fl. repeat constructor.
Qed.

(** A job that ends normally, or that parsed its bundle, has made a
    submission. *)
Lemma record_run_reaches env event i message r t :
  record_run env event i message r t ->
  (r = Ok tt -> submissions t <> [])
  /\ (forall raw pid p, In (EParseBundle raw pid (Ok p)) t -> submissions t <> []).
Proof.
  assert (Hne : forall pfx path payload c h r' tl (a b : list Event),
             loop_run env pfx path payload c h r' tl ->
             submissions (a ++ tl ++ b) <> []).
  { intros pfx path payload c h r' tl a b Hl.
    apply run_at_least_one in Hl. rewrite !submissions_app.
    destruct (submissions tl); [simpl in Hl; lia|].
    intros E. apply app_eq_nil in E as [_ E]. discriminate E. }
  assert (Hk : forall pfx path payload c h r' tl raw pid p,
             loop_run env pfx path payload c h r' tl ->
             ~ In (EParseBundle raw pid (Ok p)) tl).
  { intros pfx path payload c h r' tl raw pid p Hl Hin.
    apply run_events in Hl. rewrite List.Forall_forall in Hl.
    specialize (Hl _ Hin). discriminate Hl. }
  intros H. destruct H; split; try discriminate.
  all: try (intros raw' pid' p' Hin; simpl in Hin;
            repeat (destruct Hin as [Hin|Hin]; [discriminate Hin|]);
            contradiction).
  all: try (intros; rewrite <- (app_nil_r tl); eapply Hne; eassumption).
  all: try (intros; eapply Hne; eassumption).
Qed.

(** C9, as the code has it: a job fetches at most once and parses at most
    once.  A job that reaches the retry loop, which every job that ends
    normally and every job whose bundle was parsed does, makes exactly one
    fetch and then exactly one parse before its first submission, fetches
    and parses nothing afterwards, and hands over to every submission the
    object that parse returned. *)
Theorem job_fetch_parse_once (env : Env) (fuel : nat) (event : SQSEvent)
  (i : nat) (message : SQSRecord) (h : History) (r : Result unit)
  (t : list Event) :
  process_record env fuel event i message h = Some (r, t) ->
  ((count_of is_fetch t <= 1)%nat /\ (count_of is_parse t <= 1)%nat)
  /\ (r = Ok tt -> submissions t <> [])
  /\ (forall raw pid p,
        In (EParseBundle raw pid (Ok p)) t -> submissions t <> [])
  /\ (submissions t <> [] ->
      count_of is_fetch t = 1%nat /\ count_of is_parse t = 1%nat
      /\ exists pre post raw patientId payload,
        t = pre ++ EParseBundle raw patientId (Ok payload) :: post
        /\ count_of is_fetch pre = 1%nat
        /\ count_of is_parse pre = 0%nat
        /\ submissions pre = []
        /\ count_of is_fetch post = 0%nat
        /\ count_of is_parse post = 0%nat
        /\ Forall (fun s => fst s = payload_id payload) (submissions post)).
Proof.
  intros H. apply process_record_sound in H.
  destruct (record_run_fetch_parse _ _ _ _ _ _ H) as [Hle Hstruct].
  destruct (record_run_reaches _ _ _ _ _ _ H) as [Hok Hparsed].
  split; [exact Hle|]. split; [exact Hok|]. split; [exact Hparsed|].
  intros Hs.
  destruct (Hstruct Hs)
    as (pre & post & raw & pid & payload & -> & F1 & P1 & S1 & F2 & P2 & Hall).
  split; [|split].
  - rewrite count_of_app, count_of_cons, F1, F2. reflexivity.
  - rewrite count_of_app, count_of_cons, P1, P2. reflexivity.
  - exists pre, post, raw, pid, payload. repeat split; assumption.
Qed.

Lemma job_fetch_parse_once_witness :
  length (submissions (events Runs.started_job)) = 2%nat
  /\ count_of is_fetch (events Runs.started_job) = 1%nat
  /\ count_of is_parse (events Runs.started_job) = 1%nat.
Proof.
  destruct (job_fetch_parse_once Runs.scenario 10
              (Sample.event_of [Sample.job_started]) 0%nat
              Sample.job_started [] (Ok tt) (events Runs.started_job)
              ltac:(vm_compute; reflexivity))
    as (_ & Hok & _ & Hstruct).
  destruct (Hstruct (Hok eq_refl)) as (Hf & Hp & _).
  split; [vm_compute; reflexivity|]. split; assumption.
Defined.

(** A job whose message has no cxId is rejected before the fetch: it
    fetches and parses not once but never. *)
Lemma job_fetch_parse_once_counterexample :
  outcome MoreInputs.no_cx_job = Some (Throw (Error "Missing cxId"))
  /\ count_of is_fetch (events MoreInputs.no_cx_job) <> 1%nat
  /\ count_of is_parse (events MoreInputs.no_cx_job) <> 1%nat
  /\ count_of is_fetch (events MoreInputs.no_cx_job) = 0%nat.
Proof.
  split; [vm_compute; reflexivity|].
  split; [vm_compute; discriminate|].
  split; [vm_compute; discriminate | vm_compute; reflexivity].
Qed.

(* ===================================================================== *)

Lemma announce_events_counts env event records :
  count_of is_capture_error (announce_events env event records) = 0%nat
  /\ count_of is_flush (announce_events env event records) = 0%nat
  /\ count_of is_capture_message (announce_events env event records)
     = (if (1 <? length records)%nat then 1 else 0)%nat
  /\ started (announce_events env event records) = [].
Proof.
  unfold announce_events. destruct (1 <? length records)%nat; repeat split.
Qed.

(** C3: when the processing of a job throws (the storage retrieval gave
    up, the bundle is malformed, the retry ceiling is reached, ...), the
    handler calls capture.error exactly once, rethrows one MetriportError
    whose cause is the error of the job, and no metrics are flushed for
    that job: the only records flushed are those of the jobs that ended
    before it. *)
Theorem fatal_job_escalates (env : Env) (fuel : nat) (event : SQSEvent)
  (records before after : list SQSRecord) (m : SQSRecord) (h : History)
  (t0 tj : list Event) (err : JsError) :
  Records event = Some records ->
  records = before ++ m :: after ->
  (announce env event records ;;;
   for_entries (process_record env fuel event) 0 before) h = Some (Ok tt, t0) ->
  process_record env fuel event (length before) m (h ++ t0)
  = Some (Throw err, tj) ->
  let t := t0 ++ tj ++ escalation env event err in
  handler env fuel event h
  = Some (Throw (MetriportError (handler_msg env) (Some err) []), t)
  /\ count_of is_capture_error t = 1%nat
  /\ count_of is_capture_message t
     = (if (1 <? length records)%nat then 1 else 0)%nat
  /\ count_of is_flush tj = 0%nat
  /\ count_of is_flush t = length before.
Proof.
  intros HR -> H0 Hm t.
  apply bind_inv in H0.
  destruct H0 as [(e & _ & Hd) | ([] & ta & tb & Ha & Hb & ->)]; [discriminate|].
  rewrite announce_run in Ha. injection Ha as <-.
  split.
  - unfold handler, try_catch. rewrite HR.
    assert (Hlen : (length (before ++ m :: after) <? 1)%nat = false).
    { apply Nat.ltb_ge. rewrite length_app. simpl. lia. }
    rewrite Hlen, bind_eq, announce_run, bind_eq, for_entries_app, bind_eq, Hb.
    simpl for_entries. rewrite bind_eq. rewrite <- app_assoc, Hm.
    rewrite on_error_run. subst t. rewrite <- !app_assoc. reflexivity.
  - apply for_entries_sound in Hb. apply process_record_sound in Hm.
    destruct (jobs_run_facts _ _ _ _ _ _ Hb) as (B1 & B2 & k & _ & _ & Bok & _).
    destruct (Bok eq_refl) as [_ B3].
    destruct (record_run_no_capture _ _ _ _ _ _ Hm) as [J1 J2].
    pose proof (record_run_throw_no_flush _ _ _ _ _ _ Hm) as J3.
    destruct (announce_events_counts env event (before ++ m :: after))
      as (A1 & A2 & A3 & _).
    subst t. rewrite !count_of_app, A1, A2, A3, B1, B2, B3, J1, J2, J3.
    repeat split; try reflexivity.
    + destruct (1 <? length (before ++ m :: after))%nat; reflexivity.
    + unfold escalation, count_of. simpl. lia.
Qed.

Lemma fatal_job_escalates_witness :
  outcome (handler Runs.no_blob 10 (Sample.event_of [Sample.job]) [])
  = Some (Throw (MetriportError "Error processing event on SqsToFhir"
                   (Some Sample.storage_error) []))
  /\ count_of is_capture_error
       (events (handler Runs.no_blob 10 (Sample.event_of [Sample.job]) []))
     = 1%nat
  /\ count_of is_flush
       (events (handler Runs.no_blob 10 (Sample.event_of [Sample.job]) []))
     = 0%nat.
Proof.
  destruct (fatal_job_escalates Runs.no_blob 10 (Sample.event_of [Sample.job])
              [Sample.job] [] [] Sample.job []
              [EConsoleLog (ProcessingRecords 1)]
              (events (process_record Runs.no_blob 10
                         (Sample.event_of [Sample.job]) 0 Sample.job
                         [EConsoleLog (ProcessingRecords 1)]))
              Sample.storage_error
              eq_refl eq_refl
              ltac:(vm_compute; reflexivity) ltac:(vm_compute; reflexivity))
    as (Hh & Hc & _ & _ & Hf).
  rewrite Hh. simpl outcome. simpl events.
  split; [reflexivity|]. split; [exact Hc | exact Hf].
Defined.

(** C8, as the code has it: an invocation with more than one record
    sends one notification, first of all, and then takes the records in
    order from the first, each at the history the one before it left: all
    of them when no job throws, and up to the job that throws otherwise,
    the records after it being left unprocessed.  What follows the
    notification and the log line is the events of these jobs, and then
    the last log line or those of the catch block. *)
Theorem several_records (env : Env) (fuel : nat) (event : SQSEvent)
  (records : list SQSRecord) (h : History) (r : Result unit)
  (t : list Event) :
  Records event = Some records ->
  (1 < length records)%nat ->
  handler env fuel event h = Some (r, t) ->
  (exists t', t = notification env event (length records) :: t')
  /\ count_of is_capture_message t = 1%nat
  /\ (exists k,
        started t = seq 0 k
        /\ (1 <= k <= length records)%nat
        /\ (r = Ok tt ->
            k = length records /\ count_of is_flush t = length records)
        /\ (forall e, r = Throw e -> count_of is_flush t = (k - 1)%nat))
  /\ (exists rj tj,
        in_order env fuel event 0 records
          (h ++ [notification env event (length records);
                 EConsoleLog (ProcessingRecords (length records))]) rj tj
        /\ t = notification env event (length records)
               :: EConsoleLog (ProcessingRecords (length records))
               :: tj ++ match rj with
                        | Ok _ => [EConsoleLog Done]
                        | Throw err => escalation env event err
                        end
        /\ r = match rj with
               | Ok _ => Ok tt
               | Throw err =>
                   Throw (MetriportError (handler_msg env) (Some err) [])
               end)
  /\ (forall err,
        r = Throw (MetriportError (handler_msg env) (Some err) []) ->
        exists k m pre tk,
          records !! k = Some m
          /\ process_record env fuel event k m (h ++ pre) = Some (Throw err, tk)
          /\ t = pre ++ tk ++ escalation env event err
          /\ count_of is_flush t = k).
Proof.
  intros HR Hn H.
  assert (Hgt : (1 <? length records)%nat = true) by (apply Nat.ltb_lt; exact Hn).
  assert (Hne : records <> []) by (intros ->; simpl in Hn; lia).
  destruct (handler_in_order env fuel event records h r t HR Hne H)
    as (rj & tj & Hord & Ht & Hr).
  assert (Hann : announce_events env event records
                 = [notification env event (length records);
                    EConsoleLog (ProcessingRecords (length records))]).
  { unfold announce_events. rewrite Hgt. reflexivity. }
  rewrite Hann in Hord, Ht.
  pose proof (in_order_jobs_run _ _ _ _ _ _ _ _ Hord) as Hj.
  destruct (jobs_run_facts _ _ _ _ _ _ Hj) as (B1 & B2 & k & Hk & Hle & Bok & Bth).
  split; [rewrite Ht; simpl; eauto|].
  split.
  { rewrite Ht, !count_of_app, B2. destruct rj; reflexivity. }
  split.
  { exists k. split.
    { rewrite Ht, !started_app, Hk. destruct rj; simpl; rewrite app_nil_r;
        reflexivity. }
    destruct rj as [[]|err]; subst r.
    - destruct (Bok eq_refl) as [-> Hf].
      split; [lia|]. split; [|discriminate]. intros _. split; [reflexivity|].
      rewrite Ht, !count_of_app, Hf. unfold count_of. simpl. lia.
    - destruct (Bth err eq_refl) as [H1 Hf].
      split; [lia|]. split; [discriminate|]. intros e _.
      rewrite Ht, !count_of_app, Hf. unfold escalation, count_of. simpl. lia. }
  split.
  { exists rj, tj. split; [exact Hord|]. split; [exact Ht | exact Hr]. }
  intros err Er. destruct rj as [[]|err']; rewrite Hr in Er; [discriminate|].
  injection Er as ->.
  destruct (in_order_thrown _ _ _ _ _ _ _ _ Hord err eq_refl)
    as (k' & m & pre & tk & Hm & -> & Hpre & Hrun).
  exists k', m,
    ([notification env event (length records);
      EConsoleLog (ProcessingRecords (length records))] ++ pre), tk.
  split; [exact Hm|]. split; [rewrite app_assoc; exact Hrun|].
  split; [rewrite Ht; simpl; rewrite <- !app_assoc; reflexivity|].
  apply in_order_jobs_run in Hpre.
  destruct (jobs_run_facts _ _ _ _ _ _ Hpre) as (_ & _ & k2 & _ & _ & Pok & _).
  destruct (Pok eq_refl) as [_ Pf].
  apply process_record_sound in Hrun.
  pose proof (record_run_throw_no_flush _ _ _ _ _ _ Hrun) as Hz.
  rewrite Ht, !count_of_app, Pf, Hz. unfold escalation, count_of. simpl.
  rewrite length_take. apply lookup_lt_Some in Hm. lia.
Qed.

Lemma several_records_witness :
  count_of is_capture_message (events Runs.two_records_run) = 1%nat
  /\ exists k,
       started (events Runs.two_records_run) = seq 0 k
       /\ (1 <= k <= 2)%nat.
Proof.
  destruct (several_records Runs.scenario 10 Runs.two_records
              [Sample.job_bare; Sample.job] []
              (Throw (MetriportError "Error processing event on SqsToFhir"
                        (Some (Error "Missing message attributes")) []))
              (events Runs.two_records_run)
              eq_refl ltac:(simpl; lia) ltac:(vm_compute; reflexivity))
    as (_ & Hc & (k & Hk & Hle & _) & _).
  split; [exact Hc|]. exists k. split; [exact Hk | exact Hle].
Defined.

(** Two records, the first without message attributes: the notification
    is sent, the first job throws, and the second record is never taken,
    nothing is fetched for it. *)
Lemma several_records_counterexample :
  Records Runs.two_records = Some [Sample.job_bare; Sample.job]
  /\ count_of is_capture_message (events Runs.two_records_run) = 1%nat
  /\ started (events Runs.two_records_run) = [0%nat]
  /\ started (events Runs.two_records_run) <> [0%nat; 1%nat]
  /\ count_of is_fetch (events Runs.two_records_run) = 0%nat.
Proof.
  split; [reflexivity|]. split; [vm_compute; reflexivity|].
  split; [vm_compute; reflexivity|].
  split; [vm_compute; discriminate | vm_compute; reflexivity].
Qed.

(** C10: an event without records, or with an empty list of them, makes
    the handler return normally after one log line: nothing is fetched,
    parsed, submitted or flushed, and nothing is sent to the error-capture
    service. *)
Theorem no_records_no_work (env : Env) (fuel : nat) (event : SQSEvent)
  (h : History) :
  Records event = None \/ Records event = Some [] ->
  exists t,
    handler env fuel event h = Some (Ok tt, t)
    /\ t = [EConsoleLog (NoRecords event)]
    /\ count_of is_fetch t = 0%nat
    /\ count_of is_parse t = 0%nat
    /\ count_of is_submission t = 0%nat
    /\ count_of is_flush t = 0%nat
    /\ count_of is_capture_error t = 0%nat
    /\ count_of is_capture_message t = 0%nat.
Proof.
  intros HR. exists [EConsoleLog (NoRecords event)].
  split; [|repeat split].
  unfold handler, try_catch. destruct HR as [-> | ->]; reflexivity.
Qed.

Lemma no_records_no_work_witness :
  handler Runs.scenario 0 {| Records := None |} []
  = Some (Ok tt, [EConsoleLog (NoRecords {| Records := None |})])
  /\ handler Runs.scenario 0 (Sample.event_of []) []
     = Some (Ok tt, [EConsoleLog (NoRecords (Sample.event_of []))]).
Proof.
  split.
  - destruct (no_records_no_work Runs.scenario 0 {| Records := None |} []
                (or_introl eq_refl)) as (t & Hh & -> & _).
    exact Hh.
  - destruct (no_records_no_work Runs.scenario 0 (Sample.event_of []) []
                (or_intror eq_refl)) as (t & Hh & -> & _).
    exact Hh.
Defined.

(* ===================================================================== *)
(** ** The end-to-end scenarios *)
(* ===================================================================== *)

(** One failing entry at the first submission, none at the second: two
    submissions, an errorCount of 2, one flush, no error. *)
Example scenario_second_attempt_succeeds :
  outcome Scenarios.second_attempt_succeeds = Some (Ok tt)
  /\ length (submissions (events Scenarios.second_attempt_succeeds)) = 2%nat
  /\ length (flushed (events Scenarios.second_attempt_succeeds)) = 1%nat
  /\ Forall (fun m : gmap string Metric =>
               exists ts, m !! "errorCount" = Some (CountMetric 2 ts))
       (flushed (events Scenarios.second_attempt_succeeds))
  /\ count_of is_capture_error (events Scenarios.second_attempt_succeeds) = 0%nat.
Proof.
  split; [vm_compute; reflexivity|]. split; [vm_compute; reflexivity|].
  split; [vm_compute; reflexivity|]. split; [|vm_compute; reflexivity].
  set (fl := flushed (events Scenarios.second_attempt_succeeds)).
  vm_compute in fl. subst fl. repeat constructor. eexists. reflexivity.
Qed.

(** A failing entry at every submission: ten submissions, then the fatal
    error, one capture.error call and no flush. *)
Example scenario_every_attempt_fails :
  outcome Scenarios.every_attempt_fails
  = Some (Throw (MetriportError "Error processing event on SqsToFhir"
                   (Some (MetriportError "Too many errors from FHIR" None
                            [("count", "10"); ("maxRetries", "10")])) []))
  /\ length (submissions (events Scenarios.every_attempt_fails)) = 10%nat
  /\ count_of is_capture_error (events Scenarios.every_attempt_fails) = 1%nat
  /\ count_of is_flush (events Scenarios.every_attempt_fails) = 0%nat.
Proof. repeat split; vm_compute; reflexivity. Qed.

(* ===================================================================== *)
(** ** Further properties of the evaluator and of the loop *)
(* ===================================================================== *)

(** X1: the evaluator finds no failing entry exactly when every entry
    of the entry list of the response has a status that starts with the
    character 2; this is so, in particular, of an absent response, of one
    without entry list and of one whose list is empty. *)
Theorem no_errors_iff_all_2 :
  (forall b l,
      entry b = Some l ->
      (getErrorsFromReponse (Some b) = [] <->
       Forall (fun e => exists s, entry_status e = Some s
                                  /\ String.prefix "2" s = true) l))
  /\ getErrorsFromReponse None = []
  /\ (forall b, entry b = None \/ entry b = Some [] ->
        getErrorsFromReponse (Some b) = []).
Proof.
  split; [|split].
  - intros b l Hb. unfold getErrorsFromReponse, response_entries.
    rewrite Hb. simpl. clear Hb.
    induction l as [|e l IH]; simpl.
    + split; [constructor | reflexivity].
    + rewrite is_error_spec. unfold spec_failing.
      destruct (entry_status e) as [s|] eqn:Es; simpl.
      * destruct (String.prefix "2" s) eqn:Ep; simpl.
        -- rewrite IH. split.
           ++ intros H. constructor; [eauto | exact H].
           ++ intros H. inversion H. assumption.
        -- split; [intros H; discriminate H|].
           intros H. inversion H as [|? ? (s' & E & P)]. congruence.
      * split; [intros H; discriminate H|].
        intros H. inversion H as [|? ? (s' & E & P)]. congruence.
  - reflexivity.
  - intros b [Hb | Hb]; unfold getErrorsFromReponse, response_entries;
      rewrite Hb; reflexivity.
Qed.

Lemma no_errors_iff_all_2_witness :
  getErrorsFromReponse (Some Sample.all_ok) = []
  /\ getErrorsFromReponse (Some (Sample.bundle_of [])) = [].
Proof.
  split.
  - apply (proj1 no_errors_iff_all_2 Sample.all_ok _ eq_refl).
    repeat constructor; eexists; split; reflexivity.
  - apply (proj2 (proj2 no_errors_iff_all_2) (Sample.bundle_of [])).
    right. reflexivity.
Defined.

Section LoopMore.

Variables (env : Env) (pfx path : string) (payload : Payload).

Lemma run_paths c h r t :
  loop_run env pfx path payload c h r t ->
  Forall (fun p => p = path) (submission_paths t).
Proof. induction 1; simpl; repeat constructor. assumption. Qed.

Lemma run_thrown_submission c h r t :
  loop_run env pfx path payload c h r t ->
  forall i p e,
    submissions t !! i = Some (p, Throw e) ->
    r = Throw e /\ length (submissions t) = S i.
Proof.
  induction 1; intros i p e' Hi; simpl in Hi.
  - destruct i; simpl in Hi; discriminate.
  - destruct i; simpl in Hi; [|discriminate].
    injection Hi as _ <-. split; reflexivity.
  - destruct i; simpl in Hi; discriminate.
  - destruct i as [|i]; simpl in Hi; [discriminate|].
    destruct (IHloop_run i p e' Hi) as [-> E].
    split; [reflexivity | simpl; rewrite E; reflexivity].
Qed.

End LoopMore.

(** X2: a submission that throws (the network retries gave up) ends the
    retry loop at once: the loop throws that same error and submits
    nothing more, whatever the attempts made before. *)
Theorem retry_loop_network_error (env : Env) (fuel : nat) (pfx path : string)
  (payload : Payload) (h : History) (r : Result LoopVars) (t : list Event)
  (i p : nat) (e : JsError) :
  retry_loop env fuel (prefixedLog pfx) path payload h = Some (r, t) ->
  submissions t !! i = Some (p, Throw e) ->
  r = Throw e /\ length (submissions t) = S i.
Proof.
  intros H Hi. apply loop_sound in H.
  apply (run_thrown_submission _ _ _ _ _ _ _ _ H i p e Hi).
Qed.

Lemma retry_loop_network_error_witness :
  outcome (retry_loop (Sample.healthy (fun _ => Throw (Raised "NetworkError" "timeout")))
             10 (prefixedLog "0") "fhir/cx1" Sample.payload0 [])
  = Some (Throw (Raised "NetworkError" "timeout"))
  /\ length (submissions
               (events (retry_loop
                          (Sample.healthy (fun _ => Throw (Raised "NetworkError" "timeout")))
                          10 (prefixedLog "0") "fhir/cx1" Sample.payload0 [])))
     = 1%nat.
Proof.
  destruct (retry_loop_network_error
              (Sample.healthy (fun _ => Throw (Raised "NetworkError" "timeout")))
              10 "0" "fhir/cx1" Sample.payload0 []
              (Throw (Raised "NetworkError" "timeout"))
              (events (retry_loop
                         (Sample.healthy (fun _ => Throw (Raised "NetworkError" "timeout")))
                         10 (prefixedLog "0") "fhir/cx1" Sample.payload0 []))
              0%nat 0%nat (Raised "NetworkError" "timeout")
              ltac:(vm_compute; reflexivity) ltac:(vm_compute; reflexivity))
    as [_ Hn].
  split; [vm_compute; reflexivity | exact Hn].
Defined.

(** X3: an answer that is absent, or has no entry list, or an empty one,
    counts as success: the loop ends normally after that one submission,
    with a count of 1. *)
Theorem retry_loop_empty_answer (env : Env) (fuel : nat) (pfx path : string)
  (payload : Payload) (h : History) (resp : option Bundle) :
  (1 <= fuel)%nat ->
  executeBatch env h path payload = Ok resp ->
  response_entries resp = [] ->
  retry_loop env fuel (prefixedLog pfx) path payload h
  = Some (Ok {| ls_count := 1; ls_retry := true; ls_response := resp |},
          [EExecuteBatch path (payload_id payload) (Ok resp)]).
Proof.
  intros Hf Hx He. destruct fuel as [|fuel]; [lia|].
  unfold retry_loop. simpl.
  unfold bind at 1, retry_body at 1, bind at 1,
    executeWithNetworkRetries_executeBatch at 1.
  rewrite Hx. unfold getErrorsFromReponse. rewrite He. reflexivity.
Qed.

Lemma retry_loop_empty_answer_witness :
  retry_loop (Sample.healthy (fun _ => Ok None)) 10 (prefixedLog "0")
    "fhir/cx1" Sample.payload0 []
  = Some (Ok {| ls_count := 1; ls_retry := true; ls_response := None |},
          [EExecuteBatch "fhir/cx1" 0 (Ok None)]).
Proof.
  apply (retry_loop_empty_answer (Sample.healthy (fun _ => Ok None)) 10 "0"
           "fhir/cx1" Sample.payload0 [] None).
  - lia.
  - reflexivity.
  - reflexivity.
Defined.

(* ===================================================================== *)
(** ** The summary of the response *)
(* ===================================================================== *)

Lemma forEach_log_run pfx (l : list BundleEntry) :
  forall h,
    forEach (fun e => prefixedLog pfx (FhirServerError e)) l h
    = Some (Ok tt, map (fun e => ELog pfx (FhirServerError e)) l).
Proof.
  induction l as [|e l IH]; intros h; simpl; [reflexivity|].
  unfold bind, prefixedLog at 1, emit. rewrite IH. reflexivity.
Qed.

Lemma logged_errors_app (a b : list Event) :
  logged_errors (a ++ b) = logged_errors a ++ logged_errors b.
Proof.
  induction a as [|e a IH]; simpl; [reflexivity|].
  destruct e as [|? []| | | | | | |]; simpl; rewrite ?IH; reflexivity.
Qed.

Lemma logged_errors_map pfx (l : list BundleEntry) (t : list Event) :
  logged_errors (map (fun e => ELog pfx (FhirServerError e)) l ++ t)
  = l ++ logged_errors t.
Proof. induction l as [|e l IH]; simpl; [reflexivity | rewrite IH; reflexivity]. Qed.

Lemma count_capture_message_map pfx (l : list BundleEntry) (t : list Event) :
  count_of is_capture_message
    (map (fun e => ELog pfx (FhirServerError e)) l ++ t)
  = count_of is_capture_message t.
Proof.
  unfold count_of. induction l as [|e l IH]; simpl; [reflexivity | exact IH].
Qed.

Lemma in_map_log pfx (l : list BundleEntry) (t : list Event) msg x :
  In (ECaptureMessage msg x)
    (map (fun e => ELog pfx (FhirServerError e)) l ++ t) ->
  In (ECaptureMessage msg x) t.
Proof.
  induction l as [|e l IH]; simpl; [tauto|].
  intros [H|H]; [discriminate | exact (IH H)].
Qed.

Lemma errors_le_entries (resp : option Bundle) :
  (length (getErrorsFromReponse resp) <= length (response_entries resp))%nat.
Proof.
  unfold getErrorsFromReponse.
  induction (response_entries resp) as [|e l IH]; simpl; [lia|].
  destruct (is_error e); simpl; lia.
Qed.

(** X4: processFHIRResponse always returns; it logs the failing entries
    in their order and calls capture.message exactly when there is one,
    once, with level error, countError the number of failing entries and
    countSuccess the number of the others, which is never negative. *)
Theorem processFHIRResponse_summary (env : Env) (resp : option Bundle)
  (event : SQSEvent) (pfx : string) (h : History) :
  exists t,
    processFHIRResponse env resp event (prefixedLog pfx) h = Some (Ok tt, t)
    /\ logged_errors t = getErrorsFromReponse resp
    /\ count_of is_capture_message t
       = (if (0 <? length (getErrorsFromReponse resp))%nat then 1 else 0)%nat
    /\ (forall msg x,
          In (ECaptureMessage msg x) t ->
          msg = "Error upserting Bundle on FHIR server"
          /\ mx_level x = Some "error"
          /\ mx_countError x = Some (length (getErrorsFromReponse resp))
          /\ exists ok : nat,
               mx_countSuccess x = Some (Z.of_nat ok)
               /\ (ok + length (getErrorsFromReponse resp))%nat
                  = length (response_entries resp)).
Proof.
  unfold processFHIRResponse, when_.
  pose proof (errors_le_entries resp) as Hle.
  destruct (getErrorsFromReponse resp) as [|e0 errs] eqn:He.
  - eexists. split; [reflexivity|]. simpl.
    split; [reflexivity|]. split; [reflexivity|].
    intros msg x [H|[]]. discriminate H.
  - change (0 <? length (e0 :: errs))%nat with true. cbv iota.
    eexists. split.
    { unfold bind at 1, prefixedLog at 1, emit at 1.
      unfold bind at 1. rewrite forEach_log_run.
      unfold capture_message, emit. reflexivity. }
    split.
    { rewrite logged_errors_app, (logged_errors_map pfx (e0 :: errs)). simpl.
      rewrite app_nil_r. reflexivity. }
    split.
    { rewrite count_of_app, count_capture_message_map. reflexivity. }
    intros msg x Hin. apply in_app_or in Hin.
    destruct Hin as [[H|[]]|Hin]; [discriminate H|].
    apply in_map_log in Hin. destruct Hin as [H|[]].
    injection H as <- <-. simpl.
    split; [reflexivity|]. split; [reflexivity|]. split; [reflexivity|].
    exists (length (response_entries resp) - S (length errs))%nat.
    simpl in Hle. split; [f_equal; lia | lia].
Qed.

Lemma processFHIRResponse_summary_witness :
  exists t,
    processFHIRResponse Runs.scenario (Some Sample.one_failing)
      (Sample.event_of [Sample.job]) (prefixedLog "0") []
    = Some (Ok tt, t)
    /\ logged_errors t = [Sample.entry_with (Some "400 Bad Request")]
    /\ count_of is_capture_message t = 1%nat.
Proof.
  destruct (processFHIRResponse_summary Runs.scenario (Some Sample.one_failing)
              (Sample.event_of [Sample.job]) "0" [])
    as (t & H1 & H2 & H3 & _).
  exists t. split; [exact H1|]. split; [rewrite H2 | rewrite H3]; reflexivity.
Defined.

Lemma count_of_le (p q : Event -> bool) (t : list Event) :
  (forall e, p e = true -> q e = true) ->
  (count_of p t <= count_of q t)%nat.
Proof.
  intros Hpq. unfold count_of. induction t as [|e t IH]; simpl; [lia|].
  destruct (p e) eqn:Ep.
  - rewrite (Hpq e Ep). simpl. lia.
  - destruct (q e); simpl; lia.
Qed.

Lemma alarm_is_message (e : Event) :
  is_upsert_alarm e = true -> is_capture_message e = true.
Proof. destruct e; simpl; congruence. Qed.

(** X5: the handler never sends the capture.message of
    processFHIRResponse: the loop leaves only with a response free of
    failing entries.  The one capture.message it can send is the
    notification of an invocation with more than one record. *)
Theorem handler_never_alarms (env : Env) (fuel : nat) (event : SQSEvent)
  (h : History) (r : Result unit) (t : list Event) :
  handler env fuel event h = Some (r, t) ->
  count_of is_upsert_alarm t = 0%nat
  /\ count_of is_capture_message t
     = (if (1 <? length (default [] (Records event)))%nat then 1 else 0)%nat.
Proof.
  intros H. apply handler_run in H.
  destruct (Records event) as [[|m l]|] eqn:HR.
  - destruct H as [_ ->]. split; reflexivity.
  - destruct H as (rj & tj & Hj & H).
    destruct (jobs_run_facts _ _ _ _ _ _ Hj) as (_ & B2 & _).
    pose proof (count_of_le is_upsert_alarm is_capture_message tj alarm_is_message)
      as B3. rewrite B2 in B3.
    destruct (announce_events_counts env event (m :: l)) as (_ & _ & A3 & _).
    assert (A4 : count_of is_upsert_alarm (announce_events env event (m :: l)) = 0%nat).
    { unfold announce_events. destruct (1 <? length (m :: l))%nat; reflexivity. }
    destruct rj as [[]|err]; destruct H as [_ ->];
      rewrite !count_of_app, A3, A4, B2; simpl default;
      (split; [unfold escalation, count_of at 2; simpl; lia|]);
      destruct (1 <? length (m :: l))%nat; reflexivity.
  - destruct H as [_ ->]. split; reflexivity.
Qed.

Lemma handler_never_alarms_witness :
  count_of is_upsert_alarm (events Scenarios.second_attempt_succeeds) = 0%nat
  /\ count_of is_capture_message (events Scenarios.second_attempt_succeeds)
     = 0%nat.
Proof.
  apply (handler_never_alarms (Sample.healthy (Sample.fails_then_ok 1)) 10
           (Sample.event_of [Sample.job]) [] (Ok tt)
           (events Scenarios.second_attempt_succeeds)).
  vm_compute. reflexivity.
Defined.

(* ===================================================================== *)
(** ** Further properties of one job *)
(* ===================================================================== *)

Lemma submission_paths_app (a b : list Event) :
  submission_paths (a ++ b) = submission_paths a ++ submission_paths b.
Proof.
  induction a as [|e a IH]; simpl; [reflexivity|].
  destruct e; simpl; rewrite ?IH; reflexivity.
Qed.

Lemma loop_event_kind env pfx path payload c h r t e :
  loop_run env pfx path payload c h r t ->
  In e t -> is_submission e || is_log e = true.
Proof.
  intros H Hin. apply run_events in H.
  rewrite List.Forall_forall in H. exact (H e Hin).
Qed.

Section JobMore.

Variables (env : Env) (fuel : nat) (event : SQSEvent) (i : nat)
  (message : SQSRecord).

(** X6: the checks of a record, in their order: no message attributes,
    then a missing or empty body, then a missing or empty cxId, then a
    missing or empty patientId.  Each throws its own error after the
    record line alone: nothing is read from the clock or from S3. *)
Theorem record_rejected (h : History) :
  (messageAttributes message = None ->
   process_record env fuel event i message h
   = Some (Throw (Error "Missing message attributes"), [record_line i message]))
  /\ (forall attrib,
        messageAttributes message = Some attrib ->
        (truthy (body message) = false ->
         process_record env fuel event i message h
         = Some (Throw (Error "Missing message body"), [record_line i message]))
        /\ (truthy (body message) = true ->
            truthy_str (string_attr attrib "cxId") = false ->
            process_record env fuel event i message h
            = Some (Throw (Error "Missing cxId"), [record_line i message]))
        /\ (truthy (body message) = true ->
            truthy_str (string_attr attrib "cxId") = true ->
            truthy_str (string_attr attrib "patientId") = false ->
            process_record env fuel event i message h
            = Some (Throw (Error "Missing patientId"), [record_line i message]))).
Proof.
  unfold process_record, record_line. split.
  - intros ->. reflexivity.
  - intros attrib ->. split; [|split].
    + intros Hb. unfold throw_if. rewrite Hb. reflexivity.
    + intros Hb Hc. unfold throw_if. rewrite Hb.
      destruct (string_attr attrib "cxId") as [[|c s]|];
        simpl in Hc; try discriminate; reflexivity.
    + intros Hb Hc Hp. unfold throw_if. rewrite Hb.
      destruct (string_attr attrib "cxId") as [[|c s]|];
        simpl in Hc; try discriminate.
      destruct (string_attr attrib "patientId") as [[|c' s']|];
        simpl in Hp; try discriminate; reflexivity.
Qed.

Ltac in_cases H :=
  repeat match type of H with
         | In _ (_ ++ _) => apply in_app_or in H; destruct H as [H|H]
         | In _ (_ :: _) => destruct H as [H|H]; [try discriminate H|]
         | In _ [] => destruct H
         end.

Ltac loop_absurd :=
  match goal with
  | Hl : loop_run _ _ _ _ _ _ _ ?tl, Hin : In ?e ?tl |- _ =>
      let K := fresh in
      pose proof (loop_event_kind _ _ _ _ _ _ _ _ _ Hl Hin) as K;
      simpl in K; discriminate K
  end.

Ltac tail_cases :=
  match goal with
  | Hd : _ \/ _ |- _ =>
      destruct Hd as [(? & -> & ->) | (? & ? & ? & ? & ? & -> & ->)]
  end.

(** X7: an error of a stage ends the job there and is the job's error,
    unchanged: after a fetch that throws nothing is parsed or submitted,
    after a parse that throws nothing is submitted, and a body that
    parseBody rejects is never looked up in S3. *)
Theorem job_stage_failure (h : History) (r : Result unit) (t : list Event) :
  process_record env fuel event i message h = Some (r, t) ->
  (forall b k a d e,
      In (EGetFile b k a d (Throw e)) t ->
      r = Throw e /\ count_of is_parse t = 0%nat /\ submissions t = [])
  /\ (forall raw pid e,
        In (EParseBundle raw pid (Throw e)) t ->
        r = Throw e /\ submissions t = [])
  /\ (forall e,
        parseBody (JSON_parse env) (body message) = Throw e ->
        count_of is_fetch t = 0%nat).
Proof.
  intros H. apply process_record_sound in H.
  inversion H; subst; clear H; try tail_cases; (split; [|split]).
  all: try (intros b k a d e' Hin; in_cases Hin; try loop_absurd;
            try (inversion Hin; subst; repeat split; reflexivity)).
  all: try (intros raw' pid e' Hin; in_cases Hin; try loop_absurd;
            try (inversion Hin; subst; repeat split; reflexivity)).
  all: try (intros e' He; congruence).
  all: try (intros e' He; reflexivity).
Qed.

(** X8: every submission of a job goes to the path fhir/ followed by the
    cxId attribute of its message. *)
Theorem job_submission_path (h : History) (r : Result unit) (t : list Event)
  (p : string) :
  process_record env fuel event i message h = Some (r, t) ->
  In p (submission_paths t) ->
  exists attrib cx,
    messageAttributes message = Some attrib
    /\ string_attr attrib "cxId" = Some cx
    /\ p = "fhir/" +:+ cx.
Proof.
  intros H Hin. apply process_record_sound in H.
  inversion H; subst; clear H; try tail_cases;
    rewrite ?submission_paths_app in Hin; simpl in Hin;
    rewrite ?app_nil_r in Hin; try contradiction.
  all: match goal with
       | Hl : loop_run _ _ _ _ _ _ _ _ |- _ =>
           pose proof (proj1 (List.Forall_forall _ _)
                         (run_paths _ _ _ _ _ _ _ _ Hl) p Hin) as Hp
       end; rewrite Hp; eauto.
Qed.

(** X9: the fetch of a job reads the bucket and the key that parseBody
    took from the body, with 3 attempts and an initial delay of 500; the
    parse is given the contents that fetch returned and the patientId
    attribute of the message. *)
Theorem job_fetch_parse_arguments (h : History) (r : Result unit)
  (t : list Event) :
  process_record env fuel event i message h = Some (r, t) ->
  (forall b k a d res,
      In (EGetFile b k a d res) t ->
      exists eb,
        parseBody (JSON_parse env) (body message) = Ok eb
        /\ b = s3BucketName eb /\ k = s3FileName eb
        /\ a = 3 /\ d = 500)
  /\ (forall raw pid res,
        In (EParseBundle raw pid res) t ->
        (exists b k a d, In (EGetFile b k a d (Ok raw)) t)
        /\ exists attrib,
             messageAttributes message = Some attrib
             /\ string_attr attrib "patientId" = Some pid).
Proof.
  intros H. apply process_record_sound in H.
  inversion H; subst; clear H; try tail_cases; split.
  all: try (intros b k a d res Hin; in_cases Hin; try loop_absurd;
            try (inversion Hin; subst; eexists; repeat split; eassumption)).
  all: try (intros raw' pid res Hin; in_cases Hin; try loop_absurd;
            try (inversion Hin; subst; split;
                 [do 4 eexists; simpl; eauto 10 | eauto])).
Qed.

(** X10: the metrics record of a job that ends normally has no other key
    than download, errorCount, upsert and job, and its download duration
    is the difference of the clock readings taken right before and right
    after the fetch. *)
Theorem job_metrics_shape (h : History) (t : list Event) :
  process_record env fuel event i message h = Some (Ok tt, t) ->
  exists metrics,
    flushed t = [metrics]
    /\ (forall k, is_Some (metrics !! k) ->
          In k ["download"; "errorCount"; "upsert"; "job"])
    /\ exists pre post d0 d1 b key a dl raw ts,
         t = pre ++ EDateNow d0 :: EGetFile b key a dl (Ok raw)
                 :: EDateNow d1 :: post
         /\ metrics !! "download" = Some (DurationMetric (Finite (d1 - d0)) ts).
Proof.
  intros H. apply process_record_sound in H.
  inversion H; subst; clear H.
  match goal with
  | Hl : loop_run _ _ _ _ _ _ _ _ |- _ =>
      pose proof (loop_count_zero env is_flush _ _ _ _ _ _ _
                    ltac:(intros []; simpl; congruence) Hl) as Hfl;
      apply flushed_count_zero in Hfl
  end.
  exists metrics. tail_cases.
  - split; [rewrite !flushed_app, Hfl; reflexivity|]. split.
    + intros k Hk. unfold gathered, metrics_after_upsert in Hk.
      rewrite !lookup_insert_is_Some, lookup_empty in Hk.
      destruct Hk as [<- | [_ [<- | [_ [<- | [_ [x Hx]]]]]]];
        simpl; auto; discriminate.
    + eexists [_; _; _], _, _, _, _, _, _, _, _, _.
      split; [simpl; reflexivity | reflexivity].
  - split; [rewrite !flushed_app, Hfl; reflexivity|]. split.
    + intros k Hk. unfold gathered, metrics_after_upsert in Hk.
      rewrite !lookup_insert_is_Some, lookup_empty in Hk.
      destruct Hk as [<- | [_ [<- | [_ [<- | [_ [<- | [_ [y Hy]]]]]]]]];
        simpl; auto; discriminate.
    + eexists [_; _; _], _, _, _, _, _, _, _, _, _.
      split; [simpl; reflexivity | reflexivity].
Qed.

(** X11: the errorCount of a job that ends normally is the number of
    attempts made, so it is at least 1, also when no entry ever failed,
    and at most 10. *)
Theorem job_error_count_bounds (h : History) (t : list Event) :
  process_record env fuel event i message h = Some (Ok tt, t) ->
  exists metrics n ts,
    flushed t = [metrics]
    /\ metrics !! "errorCount" = Some (CountMetric n ts)
    /\ (1 <= n <= 10)%nat.
Proof.
  intros H. apply process_record_sound in H.
  inversion H; subst; clear H.
  match goal with
  | Hl : loop_run _ _ _ _ _ _ _ _ |- _ =>
      pose proof (loop_count_zero env is_flush _ _ _ _ _ _ _
                    ltac:(intros []; simpl; congruence) Hl) as Hfl;
      apply flushed_count_zero in Hfl;
      destruct (run_ok _ _ _ _ _ _ _ _ Hl) as (_ & _ & Hc & _);
      pose proof (run_at_least_one _ _ _ _ _ _ _ _ Hl) as Hge;
      pose proof (run_bounded _ _ _ _ _ _ _ _ Hl
                    ltac:(unfold maxRetries; lia)) as Hle
  end.
  simpl in Hc, Hle. unfold maxRetries in Hle.
  exists metrics, (ls_count vars), cs.
  tail_cases; (split; [rewrite !flushed_app, Hfl; reflexivity|]);
    (split; [reflexivity | lia]).
Qed.

Lemma outcome_bind_ext {A B} (m : Eff A) (k k' : A -> Eff B) h :
  (forall a h', outcome (k a h') = outcome (k' a h')) ->
  outcome (bind m k h) = outcome (bind m k' h).
Proof.
  intros E. unfold bind. destruct (m h) as [[[a|e] t]|]; try reflexivity.
  specialize (E a (h ++ t)).
  destruct (k a (h ++ t)) as [[]|], (k' a (h ++ t)) as [[]|];
    simpl in *; congruence.
Qed.

Lemma outcome_bind_ret {A B} (x : A) (k : A -> Eff B) h :
  outcome (bind (ret x) k h) = outcome (k x (h ++ [])).
Proof. unfold bind, ret. destruct (k x (h ++ [])) as [[]|]; reflexivity. Qed.

Ltac same_step :=
  first
    [ reflexivity
    | apply outcome_bind_ext; intros ? ?; cbv beta
    | match goal with
      | |- outcome (match ?x with _ => _ end _) = _ => destruct x
      end ].

(** Whether a job ends normally or throws, and what it throws, does not
    depend on how dates are read. *)
Lemma process_record_getTime (g : string -> Num) (h : History) :
  outcome (process_record (with_getTime env g) fuel event i message h)
  = outcome (process_record env fuel event i message h).
Proof.
  unfold process_record. repeat same_step.
  match goal with
  | |- context [truthy_str ?x] => destruct (truthy_str x)
  end.
  - rewrite !bind_assoc. same_step.
    rewrite !bind_assoc. same_step.
    rewrite !outcome_bind_ret. repeat same_step.
  - repeat same_step.
Qed.

(** X12: when the startedAt attribute is a non-empty string, the job
    duration flushed is a clock reading of the job minus the time of that
    date, and NaN when the string is no date; whether the job ends
    normally or throws, and what it throws, is the same however the date
    reads. *)
Theorem job_duration_value (h : History)
  (attrib : gmap string SQSMessageAttribute) (s : string) :
  messageAttributes message = Some attrib ->
  string_attr attrib "startedAt" = Some s ->
  s <> EmptyString ->
  (forall g,
      outcome (process_record (with_getTime env g) fuel event i message h)
      = outcome (process_record env fuel event i message h))
  /\ (forall t,
        process_record env fuel event i message h = Some (Ok tt, t) ->
        exists metrics now ts,
          flushed t = [metrics]
          /\ In (EDateNow now) t
          /\ metrics !! "job"
             = Some (DurationMetric (num_sub (Finite now) (Date_getTime env s)) ts)
          /\ (Date_getTime env s = NaN ->
              metrics !! "job" = Some (DurationMetric NaN ts))
          /\ (forall z, Date_getTime env s = Finite z ->
                metrics !! "job" = Some (DurationMetric (Finite (now - z)) ts))).
Proof.
  intros Ha Hs Hne. split; [intros g; apply process_record_getTime|].
  intros t H. apply process_record_sound in H.
  inversion H; subst; clear H.
  match goal with
  | Hm : messageAttributes message = Some ?a |- _ =>
      rewrite Hm in Ha; injection Ha as <-
  end.
  match goal with
  | Hl : loop_run _ _ _ _ _ _ _ _ |- _ =>
      pose proof (loop_count_zero env is_flush _ _ _ _ _ _ _
                    ltac:(intros []; simpl; congruence) Hl) as Hfl;
      apply flushed_count_zero in Hfl
  end.
  match goal with
  | Hd : _ \/ _ |- _ =>
      destruct Hd as [(Hf & _) | (s' & j1 & js & Hs' & _ & -> & ->)]
  end.
  - rewrite Hs in Hf. destruct s; [congruence | discriminate Hf].
  - rewrite Hs in Hs'. injection Hs' as <-.
    eexists _, j1, js.
    split; [rewrite !flushed_app, Hfl; reflexivity|].
    split; [do 3 (apply in_or_app; right); simpl; auto|].
    split; [reflexivity|]. split.
    + intros E. rewrite E. reflexivity.
    + intros z E. rewrite E. reflexivity.
Qed.

End JobMore.

Lemma record_rejected_witness :
  process_record Runs.scenario 10 Runs.two_records 0 Sample.job_bare []
  = Some (Throw (Error "Missing message attributes"),
          [record_line 0 Sample.job_bare])
  /\ process_record Runs.scenario 10 Runs.two_records 1 MoreInputs.job_no_cx []
     = Some (Throw (Error "Missing cxId"), [record_line 1 MoreInputs.job_no_cx]).
Proof.
  split.
  - apply (proj1 (record_rejected Runs.scenario 10 Runs.two_records 0
                    Sample.job_bare [])).
    reflexivity.
  - apply (proj1 (proj2 (proj2 (record_rejected Runs.scenario 10
                                  Runs.two_records 1 MoreInputs.job_no_cx [])
                           MoreInputs.attrs_no_cx eq_refl))).
    + reflexivity.
    + vm_compute. reflexivity.
Defined.

Lemma job_stage_failure_witness :
  (exists e, outcome MoreInputs.no_blob_job = Some (Throw e)
             /\ e = Sample.storage_error)
  /\ count_of is_parse (events MoreInputs.no_blob_job) = 0%nat
  /\ submissions (events MoreInputs.no_blob_job) = [].
Proof.
  destruct (proj1 (job_stage_failure Runs.no_blob 10
                     (Sample.event_of [Sample.job]) 0 Sample.job []
                     (Throw Sample.storage_error)
                     (events MoreInputs.no_blob_job)
                     ltac:(vm_compute; reflexivity))
              "bucket1" "patientA.json" 3 500 Sample.storage_error
              ltac:(vm_compute; auto 10))
    as (_ & Hp & Hs).
  split; [|split; assumption].
  exists Sample.storage_error. split; [vm_compute; reflexivity | reflexivity].
Defined.

Lemma job_submission_path_witness :
  exists attrib cx,
    messageAttributes Sample.job_started = Some attrib
    /\ string_attr attrib "cxId" = Some cx
    /\ "fhir/cx1" = "fhir/" +:+ cx.
Proof.
  apply (job_submission_path Runs.scenario 10
           (Sample.event_of [Sample.job_started]) 0 Sample.job_started []
           (Ok tt) (events Runs.started_job) "fhir/cx1").
  - vm_compute. reflexivity.
  - vm_compute. auto.
Defined.

Lemma job_fetch_parse_arguments_witness :
  exists eb,
    parseBody (JSON_parse Runs.scenario) (body Sample.job_started) = Ok eb
    /\ "bucket1" = s3BucketName eb /\ "patientA.json" = s3FileName eb
    /\ 3 = 3 /\ 500 = 500.
Proof.
  apply (proj1 (job_fetch_parse_arguments Runs.scenario 10
                  (Sample.event_of [Sample.job_started]) 0 Sample.job_started
                  [] (Ok tt) (events Runs.started_job)
                  ltac:(vm_compute; reflexivity))
           "bucket1" "patientA.json" 3 500 (Ok "raw")).
  vm_compute. auto 10.
Defined.

Lemma job_metrics_shape_witness :
  exists metrics,
    flushed (events Runs.started_job) = [metrics]
    /\ forall k, is_Some (metrics !! k) ->
                 In k ["download"; "errorCount"; "upsert"; "job"].
Proof.
  destruct (job_metrics_shape Runs.scenario 10
              (Sample.event_of [Sample.job_started]) 0 Sample.job_started []
              (events Runs.started_job) ltac:(vm_compute; reflexivity))
    as (metrics & Hf & Hk & _).
  exists metrics. split; assumption.
Defined.

Lemma job_error_count_bounds_witness :
  exists metrics n ts,
    flushed (events Runs.started_job) = [metrics]
    /\ metrics !! "errorCount" = Some (CountMetric n ts)
    /\ (1 <= n <= 10)%nat.
Proof.
  apply (job_error_count_bounds Runs.scenario 10
           (Sample.event_of [Sample.job_started]) 0 Sample.job_started []
           (events Runs.started_job)).
  vm_compute. reflexivity.
Defined.

Lemma job_duration_value_witness :
  outcome (process_record (with_getTime Runs.scenario (fun _ => Finite 0)) 10
             (Sample.event_of [MoreInputs.job_bad_start]) 0
             MoreInputs.job_bad_start [])
  = Some (Ok tt)
  /\ outcome MoreInputs.bad_start_job = Some (Ok tt)
  /\ exists metrics ts,
       flushed (events MoreInputs.bad_start_job) = [metrics]
       /\ metrics !! "job" = Some (DurationMetric NaN ts).
Proof.
  destruct (job_duration_value Runs.scenario 10
              (Sample.event_of [MoreInputs.job_bad_start]) 0
              MoreInputs.job_bad_start []
              MoreInputs.attrs_bad_start "yesterday"
              eq_refl ltac:(vm_compute; reflexivity) ltac:(discriminate))
    as [Hg Hv].
  split; [rewrite Hg; vm_compute; reflexivity|].
  split; [vm_compute; reflexivity|].
  destruct (Hv (events MoreInputs.bad_start_job) ltac:(vm_compute; reflexivity))
    as (metrics & now & ts & Hf & _ & _ & Hnan & _).
  exists metrics, ts. split; [exact Hf|]. apply Hnan. reflexivity.
Defined.

(* ===================================================================== *)
(** ** Further properties of the invocation *)
(* ===================================================================== *)

(** X13: the handler either returns normally, having made no
    capture.error call and flushed one metrics record per record of the
    event, or throws a MetriportError with its own message whose cause is
    the very error that the processing of one record of the event threw:
    the records before that one were processed in order and ended
    normally, that record's job threw the error at the history they
    left, and the handler then made exactly one capture.error call, with
    that error, which is the last thing it does; the flushes number the
    records before the failing one.  It throws nothing else. *)
Theorem handler_outcome (env : Env) (fuel : nat) (event : SQSEvent)
  (h : History) (r : Result unit) (t : list Event) :
  handler env fuel event h = Some (r, t) ->
  (r = Ok tt
   /\ count_of is_capture_error t = 0%nat
   /\ count_of is_flush t = length (default [] (Records event)))
  \/ (exists records k m pre tk err,
        Records event = Some records
        /\ records !! k = Some m
        /\ in_order env fuel event 0 (take k records)
             (h ++ announce_events env event records) (Ok tt) pre
        /\ process_record env fuel event k m
             (h ++ announce_events env event records ++ pre)
           = Some (Throw err, tk)
        /\ t = announce_events env event records ++ pre ++ tk
               ++ escalation env event err
        /\ r = Throw (MetriportError (handler_msg env) (Some err) [])
        /\ count_of is_capture_error t = 1%nat
        /\ count_of is_flush t = k
        /\ (count_of is_flush t < length (default [] (Records event)))%nat
        /\ last t = Some (ECaptureError (handler_msg env)
                            {| ex_event := event;
                               ex_context := lambdaName env;
                               ex_error := err |})).
Proof.
  intros H.
  destruct (Records event) as [[|m0 l]|] eqn:HR.
  - apply handler_run in H. rewrite HR in H.
    destruct H as [-> ->]. left. repeat split.
  - assert (Hne : m0 :: l <> []) by discriminate.
    destruct (handler_in_order env fuel event (m0 :: l) h r t HR Hne H)
      as (rj & tj & Hord & Ht & Hr).
    destruct (announce_events_counts env event (m0 :: l)) as (A1 & A2 & _ & _).
    destruct rj as [[]|err].
    + left. apply in_order_jobs_run in Hord.
      destruct (jobs_run_facts _ _ _ _ _ _ Hord) as (B1 & _ & k & _ & _ & Bok & _).
      destruct (Bok eq_refl) as [_ B3].
      split; [exact Hr|].
      rewrite Ht, !count_of_app, A1, A2, B1, B3. split; [reflexivity|].
      simpl. unfold count_of. simpl. lia.
    + right.
      destruct (in_order_thrown _ _ _ _ _ _ _ _ Hord err eq_refl)
        as (k & m & pre & tk & Hm & -> & Hpre & Hrun).
      simpl in Hrun.
      exists (m0 :: l), k, m, pre, tk, err.
      split; [reflexivity|]. split; [exact Hm|]. split; [exact Hpre|].
      split; [rewrite app_assoc; exact Hrun|].
      split; [rewrite Ht, <- !app_assoc; reflexivity|].
      split; [exact Hr|].
      pose proof (in_order_jobs_run _ _ _ _ _ _ _ _ Hord) as Hj.
      destruct (jobs_run_facts _ _ _ _ _ _ Hj) as (B1 & _).
      apply in_order_jobs_run in Hpre.
      destruct (jobs_run_facts _ _ _ _ _ _ Hpre) as (_ & _ & k2 & _ & _ & Pok & _).
      destruct (Pok eq_refl) as [_ Pf].
      apply process_record_sound in Hrun.
      pose proof (record_run_throw_no_flush _ _ _ _ _ _ Hrun) as Hz.
      pose proof (lookup_lt_Some _ _ _ Hm) as Hlt.
      assert (Hfl : count_of is_flush t = k).
      { rewrite length_take in Pf.
        rewrite Ht, !count_of_app, A2, Pf, Hz.
        change (count_of is_flush (escalation env event err)) with 0%nat.
        lia. }
      split.
      { rewrite count_of_app in B1. rewrite Ht, !count_of_app, A1.
        change (count_of is_capture_error (escalation env event err))
          with 1%nat.
        lia. }
      split; [exact Hfl|]. split; [rewrite Hfl; exact Hlt|].
      rewrite Ht. unfold escalation.
      change [EConsoleLog (ErrorProcessing (handler_msg env) err);
              ECaptureError (handler_msg env)
                {| ex_event := event; ex_context := lambdaName env;
                   ex_error := err |}]
        with ([EConsoleLog (ErrorProcessing (handler_msg env) err)]
              ++ [ECaptureError (handler_msg env)
                    {| ex_event := event; ex_context := lambdaName env;
                       ex_error := err |}]).
      rewrite !app_assoc. apply last_snoc.
  - apply handler_run in H. rewrite HR in H.
    destruct H as [-> ->]. left. repeat split.
Qed.

Lemma handler_outcome_witness :
  exists records k m pre tk,
    Records (Sample.event_of [Sample.job]) = Some records
    /\ records !! k = Some m
    /\ process_record (Sample.healthy Sample.always_fails) 10
         (Sample.event_of [Sample.job]) k m
         ([] ++ announce_events (Sample.healthy Sample.always_fails)
                  (Sample.event_of [Sample.job]) records ++ pre)
       = Some (Throw (MetriportError "Too many errors from FHIR" None
                        [("count", "10"); ("maxRetries", "10")]), tk)
    /\ count_of is_flush (events Scenarios.every_attempt_fails) = k.
Proof.
  destruct (handler_outcome (Sample.healthy Sample.always_fails) 10
              (Sample.event_of [Sample.job]) []
              (Throw (MetriportError
                        (handler_msg (Sample.healthy Sample.always_fails))
                        (Some (MetriportError "Too many errors from FHIR" None
                                 [("count", "10"); ("maxRetries", "10")]))
                        []))
              (events Scenarios.every_attempt_fails)
              ltac:(vm_compute; reflexivity))
    as [(Hr & _) | (records & k & m & pre & tk & err & HR & Hm & _ & Hrun
                    & _ & Hr & _ & Hf & _)].
  - discriminate Hr.
  - injection Hr as <-.
    exists records, k, m, pre, tk.
    split; [exact HR|]. split; [exact Hm|]. split; [exact Hrun | exact Hf].
Defined.

(** X14: the handler ends, whatever the event and whatever the clock,
    S3, the parser and the server answer: fuel for the 10 turns of the
    retry loop is never used up. *)
Theorem handler_terminates (env : Env) (fuel : nat) (event : SQSEvent)
  (h : History) :
  (maxRetries <= fuel)%nat ->
  exists r t, handler env fuel event h = Some (r, t).
Proof. intros Hf. exact (total_handler env fuel Hf event h). Qed.

Lemma handler_terminates_witness :
  exists r t,
    handler (Sample.healthy Sample.always_fails) 10
      (Sample.event_of [Sample.job; Sample.job_started]) [] = Some (r, t).
Proof.
  apply (handler_terminates (Sample.healthy Sample.always_fails) 10
           (Sample.event_of [Sample.job; Sample.job_started]) []).
  unfold maxRetries. lia.
Defined.

(* ===================================================================== *)
(** ** Further properties of parseBody *)
(* ===================================================================== *)

Section ParseBodyMore.

Variable JSON_parse : string -> Result JsValue.

(** X15: what parseBody throws, check by check: Invalid body for a body
    that is no string or is the empty string; the error of JSON.parse,
    unchanged, for a text that is no JSON; a TypeError for the JSON text
    null; Missing s3BucketName for a falsy bucket name and Invalid
    s3BucketName for one that is no string, whatever the file name;
    Missing s3FileName and Invalid s3FileName likewise once the bucket
    name is accepted. *)
Theorem parseBody_errors (body : JsValue) :
  ((forall s, body <> JStr s) \/ body = JStr EmptyString ->
   parseBody JSON_parse body = Throw (Error "Invalid body"))
  /\ (forall s,
        body = JStr s -> s <> EmptyString ->
        (forall e, JSON_parse s = Throw e -> parseBody JSON_parse body = Throw e)
        /\ (JSON_parse s = Ok JNull ->
            exists m, parseBody JSON_parse body = Throw (TypeError m))
        /\ (forall j b,
              JSON_parse s = Ok j ->
              get_prop j "s3BucketName" = Ok b ->
              (truthy b = false ->
               parseBody JSON_parse body = Throw (Error "Missing s3BucketName"))
              /\ (truthy b = true -> (forall x, b <> JStr x) ->
                  parseBody JSON_parse body
                  = Throw (Error "Invalid s3BucketName"))
              /\ (forall x f,
                    b = JStr x -> x <> EmptyString ->
                    get_prop j "s3FileName" = Ok f ->
                    (truthy f = false ->
                     parseBody JSON_parse body
                     = Throw (Error "Missing s3FileName"))
                    /\ (truthy f = true -> (forall y, f <> JStr y) ->
                        parseBody JSON_parse body
                        = Throw (Error "Invalid s3FileName"))))).
Proof.
  unfold parseBody. split.
  - intros [Hn | ->]; [|reflexivity].
    destruct body; try reflexivity. exfalso. exact (Hn s eq_refl).
  - intros s -> Hs. destruct s as [|c s]; [congruence|]. simpl.
    split; [|split].
    + intros e ->. reflexivity.
    + intros ->. simpl. eexists. reflexivity.
    + intros j b -> Hb. simpl. rewrite Hb. simpl. split; [|split].
      * intros ->. reflexivity.
      * intros -> Hx. destruct b; try reflexivity; try discriminate.
        exfalso. exact (Hx s0 eq_refl).
      * intros x f -> Hx Hf. simpl.
        destruct x as [|c' x]; [congruence|]. simpl. rewrite Hf. simpl.
        split.
        -- intros ->. reflexivity.
        -- intros -> Hy. destruct f; try reflexivity; try discriminate.
           exfalso. exact (Hy s0 eq_refl).
Qed.

(** X16: parseBody looks at nothing but the two members: two texts
    whose JSON values have the same s3BucketName and the same s3FileName
    give the same result, whatever else they hold and in whatever
    order. *)
Theorem parseBody_other_members (s s' : string) (j j' : JsValue) :
  s <> EmptyString -> s' <> EmptyString ->
  JSON_parse s = Ok j -> JSON_parse s' = Ok j' ->
  get_prop j "s3BucketName" = get_prop j' "s3BucketName" ->
  get_prop j "s3FileName" = get_prop j' "s3FileName" ->
  parseBody JSON_parse (JStr s) = parseBody JSON_parse (JStr s').
Proof.
  intros Hs Hs' Hj Hj' Hb Hf. unfold parseBody.
  destruct s as [|c s]; [congruence|]. destruct s' as [|c' s']; [congruence|].
  simpl. rewrite Hj, Hj'. simpl. rewrite Hb, Hf. reflexivity.
Qed.

End ParseBodyMore.

Lemma parseBody_errors_witness :
  parseBody JsonRef.JSON_parse (JStr "null") <> Throw (Error "Invalid body")
  /\ (exists m, parseBody JsonRef.JSON_parse (JStr "null") = Throw (TypeError m))
  /\ parseBody JsonRef.JSON_parse (JStr "{}")
     = Throw (Error "Missing s3BucketName")
  /\ parseBody JsonRef.JSON_parse (JBool true) = Throw (Error "Invalid body").
Proof.
  pose proof (parseBody_errors JsonRef.JSON_parse (JStr "null")) as [_ Hn].
  destruct (Hn "null" eq_refl ltac:(discriminate)) as (_ & Hnull & _).
  destruct (Hnull ltac:(vm_compute; reflexivity)) as [m Hm].
  split; [rewrite Hm; discriminate|]. split; [exists m; exact Hm|]. split.
  - pose proof (parseBody_errors JsonRef.JSON_parse (JStr "{}")) as [_ Ho].
    destruct (Ho "{}" eq_refl ltac:(discriminate)) as (_ & _ & Hb).
    apply (proj1 (Hb (JObj []) JUndefined ltac:(vm_compute; reflexivity)
                    eq_refl)).
    reflexivity.
  - apply (proj1 (parseBody_errors JsonRef.JSON_parse (JBool true))).
    left. intros s. discriminate.
Defined.

Lemma parseBody_other_members_witness :
  parseBody JsonRef.JSON_parse (JStr Sample.body_text)
  = parseBody JsonRef.JSON_parse
      (JStr ("{" +:+ JsonRef.q "extra" +:+ ":[1,2]," +:+ JsonRef.q "s3FileName"
             +:+ ":" +:+ JsonRef.q "patientA.json" +:+ ","
             +:+ JsonRef.q "s3BucketName" +:+ ":" +:+ JsonRef.q "bucket1" +:+ "}")).
Proof.
  eapply (parseBody_other_members JsonRef.JSON_parse).
  - discriminate.
  - discriminate.
  - vm_compute. reflexivity.
  - vm_compute. reflexivity.
  - reflexivity.
  - reflexivity.
Defined.

(* ===================================================================== *)
(** ** The document-query trigger *)
(* ===================================================================== *)

Module StartDocumentQueryFacts.

Import StartDocumentQuery.

(** X17: startDocumentQuery posts at most once, an empty object, to
    /internal/docs/query with the cxId and the patientId in the query
    string, under the configured base URL; it returns normally exactly
    when that POST answers with a truthy body, and then it has captured
    nothing. *)
Theorem trigger_posts_once (w : World) (cx pt : string) :
  let '(r, t) := startDocumentQuery w cx pt in
  (calls_of is_post t <= 1)%nat
  /\ (forall b p d res,
        In (Post b p d res) t ->
        getApiUrl w = Ok b
        /\ p = "/internal/docs/query?cxId=" +:+ cx +:+ "&patientId=" +:+ pt
        /\ d = JObj [] /\ res = post w b p d)
  /\ (r = Ok tt <->
      exists b data,
        getApiUrl w = Ok b
        /\ post w b (query_url cx pt) (JObj []) = Ok data
        /\ truthy data = true)
  /\ (r = Ok tt -> calls_of is_capture t = 0%nat /\ calls_of is_post t = 1%nat).
Proof.
  unfold startDocumentQuery, abind, atry, alift, api_post, acall, athrow.
  destruct (getApiUrl w) as [b|e0] eqn:Hu; simpl.
  - destruct (post w b (query_url cx pt) (JObj [])) as [data|e] eqn:Hp; simpl.
    + destruct (truthy data) eqn:Ht; simpl.
      * split; [unfold calls_of; simpl; lia|]. split.
        { intros b' p d res [H|[H|[]]]; [|discriminate H].
          injection H as <- <- <- <-. rewrite Hp. auto. }
        split; [|intros _; split; reflexivity].
        split; [intros _; exists b, data; auto | reflexivity].
      * split; [unfold calls_of; simpl; lia|]. split.
        { intros b' p d res [H|[H|[H|[]]]]; try discriminate H.
          injection H as <- <- <- <-. rewrite Hp. auto. }
        split; [|discriminate].
        split; [discriminate|]. intros (b' & data' & Hb & Hd & Ht').
        injection Hb as <-. rewrite Hp in Hd. injection Hd as <-. congruence.
    + split; [unfold calls_of; simpl; lia|]. split.
      { intros b' p d res [H|[H|[H|[]]]]; try discriminate H.
        injection H as <- <- <- <-. rewrite Hp. auto. }
      split; [|discriminate].
      split; [discriminate|]. intros (b' & data' & Hb & Hd & _).
      injection Hb as <-. rewrite Hp in Hd. discriminate.
  - split; [unfold calls_of; simpl; lia|]. split; [intros ? ? ? ? []|].
    split; [|discriminate].
    split; [discriminate|]. intros (b' & data' & Hb & _). discriminate.
Qed.

(** X18: when the POST throws, or answers with a falsy body (none, null,
    false, 0 or the empty string), startDocumentQuery logs the failure,
    calls capture.error once, with the url, the cxId, the patientId, the
    context and the error, and throws that same error, not a wrapped one;
    for a falsy body the error is No body returned from the url. *)
Theorem trigger_failure_captured (w : World) (cx pt b : string) (e : JsError) :
  getApiUrl w = Ok b ->
  post w b (query_url cx pt) (JObj []) = Throw e
  \/ (exists data,
        post w b (query_url cx pt) (JObj []) = Ok data
        /\ truthy data = false
        /\ e = Error ("No body returned from " +:+ query_url cx pt)) ->
  startDocumentQuery w cx pt
  = (Throw e,
     [Post b (query_url cx pt) (JObj []) (post w b (query_url cx pt) (JObj []));
      Log (out_prefix cx pt) failure_msg e;
      CaptureError failure_msg
        {| url := query_url cx pt; cxId := cx; patientId := pt;
           context := "patient-import.start-document-query"; error := e |}]).
Proof.
  intros Hu H.
  unfold startDocumentQuery, abind, atry, alift, api_post, acall, athrow.
  rewrite Hu. destruct H as [Hp | (data & Hp & Ht & ->)]; rewrite Hp; simpl.
  - reflexivity.
  - rewrite Ht. reflexivity.
Qed.

(** X19: the base URL is read outside the try block: when
    Config.getApiUrl throws, its error leaves startDocumentQuery as it is,
    with no POST, no log line and no capture.error call. *)
Theorem trigger_unconfigured (w : World) (cx pt : string) (e : JsError) :
  getApiUrl w = Throw e ->
  startDocumentQuery w cx pt = (Throw e, []).
Proof.
  intros Hu. unfold startDocumentQuery, abind, alift. rewrite Hu. reflexivity.
Qed.

Lemma trigger_failure_captured_witness :
  fst (startDocumentQuery (refusing (Raised "AxiosError" "404")) "cx1" "pat1")
  = Throw (Raised "AxiosError" "404")
  /\ calls_of is_capture
       (snd (startDocumentQuery (refusing (Raised "AxiosError" "404")) "cx1" "pat1"))
     = 1%nat
  /\ fst (startDocumentQuery (answering (JStr EmptyString)) "cx1" "pat1")
     = Throw (Error "No body returned from /internal/docs/query?cxId=cx1&patientId=pat1").
Proof.
  split; [|split].
  - rewrite (trigger_failure_captured (refusing (Raised "AxiosError" "404"))
               "cx1" "pat1" "https://api.internal" (Raised "AxiosError" "404")
               eq_refl (or_introl eq_refl)).
    reflexivity.
  - rewrite (trigger_failure_captured (refusing (Raised "AxiosError" "404"))
               "cx1" "pat1" "https://api.internal" (Raised "AxiosError" "404")
               eq_refl (or_introl eq_refl)).
    reflexivity.
  - rewrite (trigger_failure_captured (answering (JStr EmptyString))
               "cx1" "pat1" "https://api.internal"
               (Error ("No body returned from " +:+ query_url "cx1" "pat1"))
               eq_refl
               (or_intror (ex_intro _ (JStr EmptyString)
                             (conj eq_refl (conj eq_refl eq_refl))))).
    reflexivity.
Defined.

Lemma trigger_unconfigured_witness :
  startDocumentQuery (unconfigured (Error "Missing API_URL env var")) "cx1" "pat1"
  = (Throw (Error "Missing API_URL env var"), []).
Proof.
  apply (trigger_unconfigured (unconfigured (Error "Missing API_URL env var"))
           "cx1" "pat1" (Error "Missing API_URL env var")).
  reflexivity.
Defined.

Lemma trigger_posts_once_witness :
  startDocumentQuery (answering (JObj [])) "cx1" "pat1"
  = (Ok tt,
     [Post "https://api.internal" "/internal/docs/query?cxId=cx1&patientId=pat1"
        (JObj []) (Ok (JObj []));
      Debug "PatientImport start document query - cxId cx1 patientId pat1"
        "/internal/docs/query?cxId=cx1&patientId=pat1" (JObj [])])
  /\ (calls_of is_post
        (snd (startDocumentQuery (answering (JObj [])) "cx1" "pat1")) <= 1)%nat.
Proof.
  split; [reflexivity|].
  pose proof (trigger_posts_once (answering (JObj [])) "cx1" "pat1") as H.
  destruct (startDocumentQuery (answering (JObj [])) "cx1" "pat1") as [r t].
  exact (proj1 H).
Defined.

End StartDocumentQueryFacts.
